(** * PlinkoSDK: the probability table computed by [AyxPlugin.plinko_stat]

    A shallow embedding of [src/PlinkoSDK/PlinkoSDKEngine.py]: the
    configuration checks of [pi_init] and the table construction of
    [plinko_stat], followed by the properties of the table.

    Modelling conventions.
    - Python integers are [Z]; the configuration values may be [None],
      hence [option Z].
    - A pandas [DataFrame] with the default [RangeIndex] on both axes is a
      list of rows; [df.iloc[x, y]] follows Python's positional indexing
      (negative positions count from the end, anything else out of range
      raises [IndexError]).
    - A cell holds a number.  The only arithmetic of the source is [+] and
      [/ 2] on values that start as 0 and 1, so masses are modelled as
      exact rationals [Q]; the rounding of binary floating point (which can
      only appear once a mass needs more than 53 significant bits) and
      the integer or float type of a cell are not modelled.
    - Python exceptions are the [Raise] results of [PyResult]. *)

From Stdlib Require Import ZArith QArith Lia List Lqa String.
From stdpp Require Import base tactics option list sorting pretty.

Local Open Scope Z_scope.

(** ** Python results *)

Inductive exn : Set := TypeError | IndexError | ValueError.

Inductive PyResult (A : Type) : Type :=
| Ok (a : A)
| Raise (e : exn).
Arguments Ok {A} a.
Arguments Raise {A} e.

#[global] Instance PyResult_ret : MRet PyResult := @Ok.
#[global] Instance PyResult_bind : MBind PyResult := fun A B f c =>
  match c with
  | Ok a => f a
  | Raise e => Raise e
  end.

(** [try: body / except: handler] with a bare [except], which catches
    every exception. *)
Definition try_except {A} (body : PyResult A) (handler : A) : A :=
  match body with
  | Ok a => a
  | Raise _ => handler
  end.

(** [for a in l: body], threading the state and stopping at the first
    exception. *)
Fixpoint for_each {A S} (l : list A) (body : A -> S -> PyResult S) (s : S)
  : PyResult S :=
  match l with
  | [] => Ok s
  | a :: l' => s' ← body a s; for_each l' body s'
  end.

(** ** Data frames *)

Abbreviation DataFrame := (list (list Q)).

(** A pandas [Series]: index labels with their values, in order. *)
Abbreviation Series := (list (Z * Q)).

(** Resolution of a Python position against a length. *)
Definition py_pos (len : nat) (i : Z) : PyResult nat :=
  if 0 <=? i then
    if i <? Z.of_nat len then Ok (Z.to_nat i) else Raise IndexError
  else
    if - Z.of_nat len <=? i then Ok (Z.to_nat (Z.of_nat len + i))
    else Raise IndexError.

(** Number of columns; every row of a frame has the same length. *)
Definition ncols (df : DataFrame) : nat :=
  match df with
  | [] => 0%nat
  | row :: _ => length row
  end.

(** [df.columns] and [df.index]: the default [RangeIndex]. *)
Definition columns (df : DataFrame) : list Z := seqZ 0 (Z.of_nat (ncols df)).
Definition index (df : DataFrame) : list Z := seqZ 0 (Z.of_nat (length df)).

(** [df.iloc[x, y]] *)
Definition iloc_get (df : DataFrame) (x y : Z) : PyResult Q :=
  i ← py_pos (length df) x;
  j ← py_pos (ncols df) y;
  match df !! i ≫= (.!! j) with
  | Some v => Ok v
  | None => Raise IndexError
  end.

(** [df.iloc[x, y] = v] *)
Definition iloc_set (df : DataFrame) (x y : Z) (v : Q) : PyResult DataFrame :=
  i ← py_pos (length df) x;
  j ← py_pos (ncols df) y;
  Ok (alter (<[j := v]>) i df).

(** [df.iloc[x,]] as a [Series] labelled by the columns. *)
Definition iloc_row (df : DataFrame) (x : Z) : PyResult Series :=
  i ← py_pos (length df) x;
  match df !! i with
  | Some row => Ok (zip (columns df) row)
  | None => Raise IndexError
  end.

(** [max(df.columns)]; [max] of an empty sequence raises [ValueError]. *)
Definition max_columns (df : DataFrame) : PyResult Z :=
  match columns df with
  | [] => Raise ValueError
  | c :: cs => Ok (fold_left Z.max cs c)
  end.

(** [pd.DataFrame([range(1, stop)] * number_rows)] *)
Definition DataFrame_of_ranges (stop number_rows : Z) : DataFrame :=
  replicate (Z.to_nat number_rows) (inject_Z <$> seqZ 1 (stop - 1)).

(** [s[s != 0]] *)
Definition nonzero (s : Series) : Series :=
  filter (fun p => negb (Qeq_bool p.2 0)) s.

(** ** The plugin *)

Record AyxPlugin := {
  max_width : option Z;
  number_rows : option Z;
  starting_pos : option Z;
  (** [is_initialized] is only ever assigned by [display_error_msg]. *)
  is_initialized : option bool;
  (** what [alteryx_engine.output_message] received as errors *)
  error_messages : list string;
  df : option DataFrame;
  last_row : option Series;
}.

(** The fields of the configuration document read by [pi_init];
    a field is [None] when its tag is absent. *)
Record Config := {
  NumberSlots : option Z;
  NumberRows : option Z;
  StartingPos : option Z;
}.

(** The plugin after [__init__]. *)
Definition new_plugin : AyxPlugin :=
  {| max_width := None; number_rows := None; starting_pos := None;
     is_initialized := None; error_messages := [];
     df := None; last_row := None |}.

Definition display_error_msg (self : AyxPlugin) (msg_string : string)
  : AyxPlugin :=
  {| max_width := max_width self; number_rows := number_rows self;
     starting_pos := starting_pos self;
     is_initialized := Some false;
     error_messages := error_messages self ++ [msg_string];
     df := df self; last_row := last_row self |}.

(** An operand that must be an integer: [None] raises [TypeError]. *)
Definition as_int (o : option Z) : PyResult Z :=
  match o with
  | Some z => Ok z
  | None => Raise TypeError
  end.

(** Lines 187-189: every cell is set to 0, column by column. *)
Definition zero_fill (df : DataFrame) : PyResult DataFrame :=
  for_each (columns df)
    (fun x df => for_each (index df) (fun y df => iloc_set df y x 0) df) df.

(** Lines 190-194: the counter runs along the columns from 1; the column
    whose count equals the starting position receives 1 in row 0. *)
Definition place_start (starting_position : option Z) (df : DataFrame)
  : PyResult DataFrame :=
  '(df, _) ← for_each (columns df)
    (fun y '(df, count) =>
       df ← (if decide (Some count = starting_position)
             then iloc_set df 0 y 1 else Ok df);
       Ok (df, count + 1))
    (df, 1);
  Ok df.

(** Lines 201-221: the new value of cell [(x, y)]. *)
Definition new_value (df : DataFrame) (x y : Z) : PyResult Q :=
  let val := 0%Q in
  let tempval :=
    try_except (if 0 <=? y - 1 then iloc_get df (x - 1) (y - 1) else Ok 0%Q)
               0%Q in
  let val := if y =? 1 then (val + tempval)%Q else (val + tempval / 2)%Q in
  let tempval :=
    try_except (m ← max_columns df;
                if y + 1 <=? m then iloc_get df (x - 1) (y + 1) else Ok 0%Q)
               0%Q in
  m ← max_columns df;
  Ok (if y =? m - 1 then (val + tempval)%Q else (val + tempval / 2)%Q).

(** Lines 196-221: row [x] is filled from row [x - 1]. *)
Definition propagate (df : DataFrame) : PyResult DataFrame :=
  for_each (index df)
    (fun x df =>
       if x =? 0 then Ok df
       else for_each (columns df)
              (fun y df => val ← new_value df x y; iloc_set df x y val) df)
    df.

Definition plinko_stat (self : AyxPlugin) : PyResult (DataFrame * Series) :=
  max_width ← as_int (max_width self);
  number_rows ← as_int (number_rows self);
  let starting_position := starting_pos self in
  let df := DataFrame_of_ranges (max_width * 2) number_rows in
  df ← zero_fill df;
  df ← place_start starting_position df;
  df ← propagate df;
  last ← iloc_row df (-1);
  Ok (df, nonzero last).

(** [pi_init], on the parsed configuration.  The output anchors are host
    objects and are left out. *)
Definition pi_init (self : AyxPlugin) (cfg : Config) : PyResult AyxPlugin :=
  let self :=
    {| max_width := NumberSlots cfg; number_rows := NumberRows cfg;
       starting_pos := StartingPos cfg;
       is_initialized := is_initialized self;
       error_messages := error_messages self;
       df := df self; last_row := last_row self |} in
  self ←
    match starting_pos self with
    | None => Ok (display_error_msg self "Starting Position cannot be empty.")
    | Some s =>
        w ← as_int (max_width self);
        if w <? s
        then Ok (display_error_msg self
                   "Starting Position cannot be greater than the number of slots.")
        else Ok self
    end;
  '(d, l) ← plinko_stat self;
  Ok {| max_width := max_width self; number_rows := number_rows self;
        starting_pos := starting_pos self;
        is_initialized := is_initialized self;
        error_messages := error_messages self;
        df := Some d; last_row := Some l |}.

(** The plugin configured with integers, as [plinko_stat] sees it. *)
Definition board (width rows : Z) (startingSlot : option Z) : AyxPlugin :=
  {| max_width := Some width; number_rows := Some rows;
     starting_pos := startingSlot;
     is_initialized := None; error_messages := [];
     df := None; last_row := None |}.

(** ** The table in closed form

    The frames that occur during [plinko_stat] are all rectangular, so
    each is described by a function from positions to values.  The
    functions below describe what the loops of [plinko_stat] leave in the
    frame; [plinko_stat_closed_form] proves that they do. *)

Definition grid_of (F : nat -> nat -> Q) (R C : nat) : DataFrame :=
  (fun i => F i <$> seq 0 C) <$> seq 0 R.

(** The impulse of row 0: the counter of [place_start] is [j + 1] at
    column [j]. *)
Definition impulse (s : option Z) (j : nat) : Q :=
  if decide (Some (Z.of_nat j + 1) = s) then 1%Q else 0%Q.

(** What [new_value] computes at column [j] of a [C]-column frame whose
    previous row is [prev]. *)
Definition spread (C : nat) (prev : nat -> Q) (j : nat) : Q :=
  let t1 := if decide (1 <= j)%nat then prev (j - 1)%nat else 0%Q in
  let v := if decide (j = 1%nat) then (0 + t1)%Q else (0 + t1 / 2)%Q in
  let t2 := if decide (j + 1 < C)%nat then prev (j + 1)%nat else 0%Q in
  if decide (j + 2 = C)%nat then (v + t2)%Q else (v + t2 / 2)%Q.

Fixpoint mass (C : nat) (s : option Z) (r : nat) : nat -> Q :=
  match r with
  | O => impulse s
  | S r' => spread C (mass C s r')
  end.

(** Number of columns of the table for a board of the given width. *)
Definition table_width (width : Z) : nat := Z.to_nat (width * 2 - 1).

(** Row 0 holds the impulse, the other rows are zero. *)
Definition started (s : option Z) (i j : nat) : Q :=
  if decide (i = 0%nat) then impulse s j else 0%Q.

(** The final distribution read off the closed form. *)
Definition final_distribution (C : nat) (s : option Z) (R : nat) : Series :=
  nonzero (zip (seqZ 0 (Z.of_nat C)) (mass C s (R - 1) <$> seq 0 C)).

(** ** Reading the results *)

(** The mass at row [r], column [c] of a table; zero off the table. *)
Definition mass_at (df : list (list Q)) (r c : Z) : Q :=
  if decide (0 <= r /\ 0 <= c)
  then default 0%Q (df !! Z.to_nat r ≫= (.!! Z.to_nat c))
  else 0%Q.

(** A table of [rows] rows and [cols] columns. *)
Definition has_shape (df : list (list Q)) (rows cols : Z) : Prop :=
  Z.of_nat (length df) = rows /\
  Forall (fun row => Z.of_nat (length row) = cols) df.

(** [sum(row)]: the entries added left to right, from 0. *)
Definition total (row : list Q) : Q := fold_left Qplus row 0%Q.

(** A valid board: [width > 0], [rows > 0] and [1 <= startingSlot <= width]. *)
Definition valid_board (width rows startingSlot : Z) : Prop :=
  0 < width /\ 0 < rows /\ 1 <= startingSlot <= width.

(** The sum of the first [n] values of [f], added left to right as
    Python's [sum] does. *)
Fixpoint sumf (f : nat -> Q) (n : nat) : Q :=
  match n with
  | O => 0%Q
  | S n' => (sumf f n' + f n')%Q
  end.

(** What a row sends to the right (received from the left source) and to
    the left (received from the right source). *)
Definition from_left (prev : nat -> Q) (j : nat) : Q :=
  match j with
  | 0%nat => 0%Q
  | 1%nat => prev 0%nat
  | S j' => (prev j' / 2)%Q
  end.

Definition from_right (C : nat) (prev : nat -> Q) (j : nat) : Q :=
  if decide (C <= j + 1)%nat then 0%Q
  else if decide (j + 2 = C)%nat then prev (j + 1)%nat
  else (prev (j + 1)%nat / 2)%Q.

(** ** Records for the host

    [pi_push_all_records] talks to objects of the host: the two output
    anchors, a [RecordInfo] and its record creator.  They are modelled
    by what the plugin does to them: a [RecordInfo] is the list of the
    fields added to it, a record is the list of the [set_from_string]
    calls made on the record creator since it was constructed or last
    reset, and the anchors are the sequence of calls they receive.
    Python's [str] of a cell value is a parameter, [str_number]; [str]
    of an integer label is its decimal text, [pretty]. *)

Inductive FieldType : Set := FieldType_float | FieldType_int16.

Inductive OutputAnchor : Set := Anchor_DataFrame | Anchor_LastRow.

Abbreviation RecordInfo := (list (string * FieldType)).

Abbreviation Record := (list (nat * string)).

Inductive HostCall : Type :=
| Call_init (anchor : OutputAnchor) (record_info : RecordInfo)
| Call_push_record (anchor : OutputAnchor) (out_record : Record)
| Call_close (anchor : OutputAnchor)
| Call_assert_close (anchor : OutputAnchor).

(** The exceptions of this phase: an attribute that was never assigned,
    and a label that is not in an index. *)
Inductive push_exn : Set := AttributeError | KeyError.

Inductive Pushing (A : Type) : Type :=
| Done (a : A)
| Failed (e : push_exn).
Arguments Done {A} a.
Arguments Failed {A} e.

#[global] Instance Pushing_bind : MBind Pushing := fun A B f c =>
  match c with
  | Done a => f a
  | Failed e => Failed e
  end.

Fixpoint for_each_p {A S} (l : list A) (body : A -> S -> Pushing S) (s : S)
  : Pushing S :=
  match l with
  | [] => Done s
  | a :: l' => s' ← body a s; for_each_p l' body s'
  end.

(** [self.df], [self.last_row]: reading an attribute that [pi_init] has
    not assigned raises [AttributeError]. *)
Definition attribute {A} (o : option A) : Pushing A :=
  match o with
  | Some a => Done a
  | None => Failed AttributeError
  end.

(** [df.loc[row, column]]: with a [RangeIndex] the labels are the
    positions; a label that is not there raises [KeyError]. *)
Definition loc_get (df : DataFrame) (row column : Z) : Pushing Q :=
  if decide (0 <= row /\ 0 <= column) then
    match df !! Z.to_nat row ≫= (.!! Z.to_nat column) with
    | Some v => Done v
    | None => Failed KeyError
    end
  else Failed KeyError.

(** [s.index] and [s[label]] of a [Series] whose labels are distinct. *)
Definition series_index (s : Series) : list Z := s.*1.

Fixpoint series_get (s : Series) (label : Z) : Pushing Q :=
  match s with
  | [] => Failed KeyError
  | (k, v) :: s' => if decide (k = label) then Done v else series_get s' label
  end.

(** What [build_record_info_out] is given: the frame or the series. *)
Inductive PandasObject : Type :=
| Frame (df : DataFrame)
| Ser (s : Series).

(** [obj.columns]; a [Series] has no such attribute. *)
Definition obj_columns (obj : PandasObject) : Pushing (list Z) :=
  match obj with
  | Frame df => Done (columns df)
  | Ser _ => Failed AttributeError
  end.

Definition build_record_info_out (obj : PandasObject) : RecordInfo :=
  let record_info_out : RecordInfo := [] in
  match obj_columns obj with
  | Done cols =>
      record_info_out ++ ((fun i : Z => (pretty i, FieldType_float)) <$> cols)
  | Failed _ =>
      record_info_out ++
      [("Position"%string, FieldType_int16); ("Value"%string, FieldType_float)]
  end.

(** [pi_push_all_records]; [host] is the sequence of calls the host has
    received so far. *)
Definition pi_push_all_records (str_number : Q -> string) (self : AyxPlugin)
    (n_record_limit : Z) (host : list HostCall)
  : Pushing (bool * list HostCall) :=
  d ← attribute (df self);
  let record_info_out := build_record_info_out (Frame d) in
  let host := host ++ [Call_init Anchor_DataFrame record_info_out] in
  let record_creator : Record := [] in
  '(host, record_creator) ← for_each_p (index d)
    (fun row '(host, record_creator) =>
       '(record_creator, t) ← for_each_p (columns d)
         (fun column '(record_creator, t) =>
            v ← loc_get d row column;
            Done (record_creator ++ [(t, str_number v)], S t))
         (record_creator, 0%nat);
       let out_record : Record := record_creator in
       Done (host ++ [Call_push_record Anchor_DataFrame out_record], []))
    (host, record_creator);
  let host := host ++ [Call_close Anchor_DataFrame] in
  l ← attribute (last_row self);
  let record_info_out := build_record_info_out (Ser l) in
  let host := host ++ [Call_init Anchor_LastRow record_info_out] in
  let record_creator : Record := [] in
  '(host, record_creator) ← for_each_p (series_index l)
    (fun row '(host, record_creator) =>
       v ← series_get l row;
       let record_creator :=
         record_creator ++ [(0%nat, pretty row)] ++ [(1%nat, str_number v)] in
       let out_record : Record := record_creator in
       Done (host ++ [Call_push_record Anchor_LastRow out_record], []))
    (host, record_creator);
  let host := host ++ [Call_close Anchor_LastRow] in
  Done (true, host).


(** The record of one table row: field [t] holds the text of column [t]. *)
Definition render_row (str_number : Q -> string) (row : list Q) : Record :=
  zip (seq 0 (length row)) (str_number <$> row).

(** The record of one entry of the final distribution. *)
Definition render_entry (str_number : Q -> string) (p : Z * Q) : Record :=
  [(0%nat, pretty p.1); (1%nat, str_number p.2)].

(** The records an anchor was sent, in order. *)
Definition pushed (a : OutputAnchor) (host : list HostCall) : list Record :=
  omap (fun c => match c with
                 | Call_push_record a' r =>
                     match a, a' with
                     | Anchor_DataFrame, Anchor_DataFrame
                     | Anchor_LastRow, Anchor_LastRow => Some r
                     | _, _ => None
                     end
                 | _ => None
                 end) host.

(** ** Loops *)

Lemma for_each_inv {A S} (I : list A -> S -> Prop) (l : list A)
    (body : A -> S -> PyResult S) (s0 : S) :
  I [] s0 ->
  (forall done a rest s, l = done ++ a :: rest -> I done s ->
     exists s', body a s = Ok s' /\ I (done ++ [a]) s') ->
  exists s', for_each l body s0 = Ok s' /\ I l s'.
Proof.
  revert I s0. induction l as [|a l IH]; intros I s0 H0 Hstep.
  - exists s0. split; [reflexivity | assumption].
  - destruct (Hstep [] a l s0 eq_refl H0) as (s1 & Hb & H1).
    destruct (IH (fun d s => I (a :: d) s) s1 H1) as (s2 & Hf & H2).
    + intros d b rest s -> HI.
      apply (Hstep (a :: d) b rest s eq_refl HI).
    + exists s2. split; [|assumption].
      cbn [for_each]. rewrite Hb. exact Hf.
Qed.

(** The loop variable of a [RangeIndex] is the number of completed
    iterations. *)
Lemma seqZ_split (n : nat) (done rest : list Z) (a : Z) :
  seqZ 0 (Z.of_nat n) = done ++ a :: rest ->
  a = Z.of_nat (length done) /\ (length done < n)%nat.
Proof.
  intros H.
  assert (Hl : seqZ 0 (Z.of_nat n) !! length done = Some a).
  { rewrite H. apply list_lookup_middle. reflexivity. }
  apply lookup_seqZ in Hl. lia.
Qed.

(** ** Rectangular frames *)

Section Grid.
Context (R C : nat).

Lemma grid_of_lookup F i :
  (i < R)%nat -> grid_of F R C !! i = Some (F i <$> seq 0 C).
Proof.
  intros Hi. unfold grid_of.
  rewrite list_lookup_fmap, lookup_seq_lt by assumption. reflexivity.
Qed.

Lemma grid_of_lookup_ge F i : (R <= i)%nat -> grid_of F R C !! i = None.
Proof.
  intros Hi. apply lookup_ge_None_2. unfold grid_of.
  rewrite length_fmap, length_seq. assumption.
Qed.

Lemma grid_of_cell F i j :
  (i < R)%nat -> (j < C)%nat ->
  grid_of F R C !! i ≫= (.!! j) = Some (F i j).
Proof.
  intros Hi Hj. rewrite grid_of_lookup by assumption.
  change (Some (F i <$> seq 0 C) ≫= (.!! j)) with ((F i <$> seq 0 C) !! j).
  rewrite list_lookup_fmap, lookup_seq_lt by assumption. reflexivity.
Qed.

Lemma grid_of_length F : length (grid_of F R C) = R.
Proof. unfold grid_of. rewrite length_fmap, length_seq. reflexivity. Qed.

Lemma grid_of_ncols F : (0 < R)%nat -> ncols (grid_of F R C) = C.
Proof.
  intros HR. unfold grid_of. destruct R as [|R']; [lia|].
  cbn. rewrite length_fmap, length_seq. reflexivity.
Qed.

Lemma grid_of_ext F G :
  (forall i j, (i < R)%nat -> (j < C)%nat -> F i j = G i j) ->
  grid_of F R C = grid_of G R C.
Proof.
  intros H. unfold grid_of.
  apply list_eq. intros i. rewrite !list_lookup_fmap.
  destruct (decide (i < R)%nat) as [Hi|Hi].
  - rewrite lookup_seq_lt by assumption. cbn. f_equal.
    apply list_eq. intros j. rewrite !list_lookup_fmap.
    destruct (decide (j < C)%nat) as [Hj|Hj].
    + rewrite lookup_seq_lt by assumption. cbn. f_equal. auto.
    + rewrite lookup_seq_ge by lia. reflexivity.
  - rewrite lookup_seq_ge by lia. reflexivity.
Qed.

Lemma grid_of_columns F :
  (0 < R)%nat -> columns (grid_of F R C) = seqZ 0 (Z.of_nat C).
Proof. intros HR. unfold columns. rewrite grid_of_ncols; auto. Qed.

Lemma grid_of_index F : index (grid_of F R C) = seqZ 0 (Z.of_nat R).
Proof. unfold index. rewrite grid_of_length. reflexivity. Qed.

Lemma py_pos_nat (len i : nat) :
  (i < len)%nat -> py_pos len (Z.of_nat i) = Ok i.
Proof.
  intros H. unfold py_pos.
  destruct (Z.leb_spec 0 (Z.of_nat i)); [|lia].
  destruct (Z.ltb_spec (Z.of_nat i) (Z.of_nat len)); [|lia].
  rewrite Nat2Z.id. reflexivity.
Qed.

Lemma iloc_get_grid F i j :
  (i < R)%nat -> (j < C)%nat ->
  iloc_get (grid_of F R C) (Z.of_nat i) (Z.of_nat j) = Ok (F i j).
Proof.
  intros Hi Hj. unfold iloc_get.
  rewrite grid_of_length, grid_of_ncols by lia.
  rewrite !py_pos_nat by assumption. cbn.
  rewrite grid_of_cell by assumption. reflexivity.
Qed.

Lemma iloc_set_grid F i j v :
  (i < R)%nat -> (j < C)%nat ->
  iloc_set (grid_of F R C) (Z.of_nat i) (Z.of_nat j) v =
  Ok (grid_of (fun i' j' => if decide (i' = i /\ j' = j) then v else F i' j')
              R C).
Proof.
  intros Hi Hj. unfold iloc_set.
  rewrite grid_of_length, grid_of_ncols by lia.
  rewrite !py_pos_nat by assumption. cbn. f_equal.
  apply list_eq. intros i'.
  destruct (decide (i' < R)%nat) as [Hi'|Hi'].
  2:{ rewrite grid_of_lookup_ge by lia.
      apply lookup_ge_None_2. rewrite length_alter, grid_of_length. lia. }
  rewrite (grid_of_lookup _ i') by assumption.
  destruct (decide (i = i')) as [<-|Hne].
  - rewrite list_lookup_alter_eq, grid_of_lookup by assumption. cbn.
    f_equal. apply list_eq. intros j'.
    destruct (decide (j' < C)%nat) as [Hj'|Hj'].
    2:{ rewrite (lookup_ge_None_2 (_ <$> _)).
        2:{ rewrite length_fmap, length_seq. lia. }
        apply lookup_ge_None_2.
        rewrite length_insert, length_fmap, length_seq. lia. }
    rewrite (list_lookup_fmap _ (seq 0 C) j'), lookup_seq_lt by assumption.
    cbn. destruct (decide (j = j')) as [<-|Hnej].
    + rewrite list_lookup_insert_eq.
      * rewrite decide_True by auto. reflexivity.
      * rewrite length_fmap, length_seq. assumption.
    + rewrite list_lookup_insert_ne by assumption.
      rewrite list_lookup_fmap, lookup_seq_lt by assumption. cbn.
      rewrite decide_False by (intros [_ ?]; congruence). reflexivity.
  - rewrite list_lookup_alter_ne, grid_of_lookup by assumption.
    f_equal. apply list_eq. intros j'. rewrite !list_lookup_fmap.
    destruct (seq 0 C !! j') eqn:E; cbn; [|reflexivity].
    rewrite decide_False by (intros [? _]; congruence). reflexivity.
Qed.
End Grid.

(** ** The phases of [plinko_stat] on rectangular frames *)

Lemma DataFrame_of_ranges_grid (width rows : Z) :
  DataFrame_of_ranges (width * 2) rows =
  grid_of (fun _ j => inject_Z (Z.of_nat j + 1))
          (Z.to_nat rows) (table_width width).
Proof.
  unfold DataFrame_of_ranges, table_width.
  set (R := Z.to_nat rows).
  apply list_eq. intros i.
  destruct (decide (i < R)%nat) as [Hi|Hi].
  - rewrite lookup_replicate_2, grid_of_lookup by assumption. f_equal.
    unfold seqZ. rewrite <- list_fmap_compose.
    apply list_fmap_ext. intros _ j _. reflexivity.
  - rewrite grid_of_lookup_ge by lia.
    apply lookup_replicate_None. lia.
Qed.

Lemma fold_max_seqZ (n : nat) (a : Z) :
  fold_left Z.max (seqZ (a + 1) (Z.of_nat n)) a = a + Z.of_nat n.
Proof.
  revert a. induction n as [|n IH]; intros a.
  - change (a = a + 0). lia.
  - rewrite seqZ_cons by lia. cbn [fold_left].
    replace (Z.pred (Z.of_nat (S n))) with (Z.of_nat n) by lia.
    replace (Z.max a (a + 1)) with (a + 1) by lia.
    change (Z.succ (a + 1)) with (a + 1 + 1).
    rewrite IH. lia.
Qed.

Section Phases.
Context (R C : nat) (HR : (0 < R)%nat).

Lemma max_columns_grid F :
  (0 < C)%nat -> max_columns (grid_of F R C) = Ok (Z.of_nat C - 1).
Proof.
  intros HC. unfold max_columns. rewrite grid_of_columns by assumption.
  rewrite seqZ_cons by lia. f_equal.
  replace (Z.pred (Z.of_nat C)) with (Z.of_nat (C - 1)) by lia.
  change (Z.succ 0) with (0 + 1).
  rewrite fold_max_seqZ. lia.
Qed.

Lemma zero_fill_grid F :
  zero_fill (grid_of F R C) = Ok (grid_of (fun _ _ => 0%Q) R C).
Proof.
  unfold zero_fill. rewrite grid_of_columns by assumption.
  destruct (for_each_inv
    (fun done df => df = grid_of
       (fun i j => if decide (j < length done)%nat then 0%Q else F i j) R C)
    (seqZ 0 (Z.of_nat C))
    (fun x df => for_each (index df) (fun y df => iloc_set df y x 0%Q) df)
    (grid_of F R C)) as (df' & -> & ->).
  - apply grid_of_ext. intros i j _ _. cbn. reflexivity.
  - intros done x rest df Hl ->.
    apply seqZ_split in Hl as [-> Hk].
    set (k := length done).
    rewrite grid_of_index.
    destruct (for_each_inv
      (fun done' df => df = grid_of
         (fun i j => if decide (j < k \/ (j = k /\ i < length done'))%nat
                     then 0%Q else F i j) R C)
      (seqZ 0 (Z.of_nat R))
      (fun y df => iloc_set df y (Z.of_nat k) 0%Q)
      (grid_of (fun i j => if decide (j < k)%nat then 0%Q else F i j) R C))
      as (df' & -> & ->).
    + apply grid_of_ext. intros i j _ _. cbn.
      repeat case_decide; try reflexivity; lia.
    + intros done' y rest' df Hl' ->.
      apply seqZ_split in Hl' as [-> Hy].
      rewrite iloc_set_grid by assumption.
      eexists; split; [reflexivity|].
      apply grid_of_ext. intros i j _ _. rewrite length_app. cbn.
      repeat case_decide; try reflexivity; lia.
    + eexists; split; [reflexivity|].
      apply grid_of_ext. intros i j Hi _.
      rewrite length_app, length_seqZ. cbn. fold k.
      repeat case_decide; try reflexivity; lia.
  - f_equal. apply grid_of_ext. intros i j _ Hj.
    rewrite length_seqZ. rewrite decide_True by lia. reflexivity.
Qed.


Lemma place_start_grid s :
  place_start s (grid_of (fun _ _ => 0%Q) R C) =
  Ok (grid_of (started s) R C).
Proof.
  unfold place_start. rewrite grid_of_columns by assumption.
  destruct (for_each_inv
    (fun done '(df, count) =>
       count = Z.of_nat (length done) + 1 /\
       df = grid_of (fun i j => if decide (j < length done)%nat
                                then started s i j else 0%Q) R C)
    (seqZ 0 (Z.of_nat C))
    (fun y '(df, count) =>
       df ← (if decide (Some count = s)
             then iloc_set df 0 y 1%Q else Ok df);
       Ok (df, count + 1))
    (grid_of (fun _ _ => 0%Q) R C, 1)) as ([df' cnt] & -> & Hc & ->).
  - split; [reflexivity|].
    apply grid_of_ext. intros i j _ _. cbn. reflexivity.
  - intros done y rest [df cnt] Hl [-> ->].
    apply seqZ_split in Hl as [-> Hk].
    set (k := length done).
    case_decide as Hs.
    + rewrite (iloc_set_grid R C _ 0 k) by assumption.
      eexists (_, _); split; [reflexivity|]. split.
      * rewrite length_app. cbn. lia.
      * apply grid_of_ext. intros i j _ _. rewrite length_app. cbn.
        fold k. unfold started, impulse.
        repeat case_decide; destruct_and?; subst;
          try reflexivity; try lia; try congruence.
    + eexists (_, _); split; [reflexivity|]. split.
      * rewrite length_app. cbn. lia.
      * apply grid_of_ext. intros i j _ _. rewrite length_app. cbn.
        fold k. unfold started, impulse.
        repeat case_decide; try reflexivity; try lia.
        assert (j = k) by lia. subst j. congruence.
  - cbn. f_equal. apply grid_of_ext. intros i j _ Hj.
    rewrite length_seqZ. rewrite decide_True by lia. reflexivity.
Qed.
End Phases.

Lemma spread_ext (C : nat) (prev prev' : nat -> Q) (j : nat) :
  (j < C)%nat ->
  (forall j', (j' < C)%nat -> prev j' = prev' j') ->
  spread C prev j = spread C prev' j.
Proof.
  intros Hj H. unfold spread.
  repeat case_decide; rewrite ?H by lia; reflexivity.
Qed.

Section Propagation.
Context (R C : nat) (HR : (0 < R)%nat).

Lemma new_value_grid G i j :
  (1 <= i < R)%nat -> (j < C)%nat ->
  new_value (grid_of G R C) (Z.of_nat i) (Z.of_nat j) =
  Ok (spread C (G (i - 1)%nat) j).
Proof.
  intros Hi Hj. unfold new_value, spread.
  rewrite max_columns_grid by lia. cbn [mbind PyResult_bind].
  replace (Z.of_nat i - 1) with (Z.of_nat (i - 1)) by lia.
  assert (Hleft :
    try_except (if 0 <=? Z.of_nat j - 1
                then iloc_get (grid_of G R C) (Z.of_nat (i - 1))
                       (Z.of_nat j - 1)
                else Ok 0%Q) 0%Q =
    if decide (1 <= j)%nat then G (i - 1)%nat (j - 1)%nat else 0%Q).
  { destruct (Z.leb_spec 0 (Z.of_nat j - 1)).
    - replace (Z.of_nat j - 1) with (Z.of_nat (j - 1)) by lia.
      rewrite iloc_get_grid by lia. rewrite decide_True by lia. reflexivity.
    - rewrite decide_False by lia. reflexivity. }
  assert (Hright :
    try_except (if Z.of_nat j + 1 <=? Z.of_nat C - 1
                then iloc_get (grid_of G R C) (Z.of_nat (i - 1))
                       (Z.of_nat j + 1)
                else Ok 0%Q) 0%Q =
    if decide (j + 1 < C)%nat then G (i - 1)%nat (j + 1)%nat else 0%Q).
  { destruct (Z.leb_spec (Z.of_nat j + 1) (Z.of_nat C - 1)).
    - replace (Z.of_nat j + 1) with (Z.of_nat (j + 1)) by lia.
      rewrite iloc_get_grid by lia. rewrite decide_True by lia. reflexivity.
    - rewrite decide_False by lia. reflexivity. }
  rewrite Hleft, Hright. f_equal.
  destruct (Z.eqb_spec (Z.of_nat j) 1), (Z.eqb_spec (Z.of_nat j) (Z.of_nat C - 1 - 1));
    repeat case_decide; try reflexivity; lia.
Qed.

Lemma propagate_grid s :
  propagate (grid_of (started s) R C) = Ok (grid_of (mass C s) R C).
Proof.
  unfold propagate. rewrite grid_of_index.
  destruct (for_each_inv
    (fun done df => df = grid_of
       (fun i j => if decide (i < length done)%nat
                   then mass C s i j else started s i j) R C)
    (seqZ 0 (Z.of_nat R))
    (fun x df =>
       if x =? 0 then Ok df
       else for_each (columns df)
              (fun y df => val ← new_value df x y; iloc_set df x y val) df)
    (grid_of (started s) R C)) as (df' & -> & ->).
  - apply grid_of_ext. intros i j _ _. cbn. reflexivity.
  - intros done x rest df Hl ->.
    apply seqZ_split in Hl as [-> Hk].
    set (k := length done) in *.
    destruct (Z.eqb_spec (Z.of_nat k) 0) as [Hz|Hz].
    + eexists; split; [reflexivity|].
      apply grid_of_ext. intros i j _ _. rewrite length_app. cbn. fold k.
      unfold started.
      repeat case_decide; subst; try reflexivity; lia.
    + rewrite grid_of_columns by assumption.
      destruct (for_each_inv
        (fun done' df => df = grid_of
           (fun i j => if decide (i < k \/ (i = k /\ j < length done'))%nat
                       then mass C s i j else started s i j) R C)
        (seqZ 0 (Z.of_nat C))
        (fun y df => val ← new_value df (Z.of_nat k) y;
                     iloc_set df (Z.of_nat k) y val)
        (grid_of (fun i j => if decide (i < k)%nat
                             then mass C s i j else started s i j) R C))
        as (df' & -> & ->).
      * apply grid_of_ext. intros i j _ _. cbn.
        repeat case_decide; try reflexivity; lia.
      * intros done' y rest' df Hl' ->.
        apply seqZ_split in Hl' as [-> Hy].
        set (m := length done') in *.
        rewrite new_value_grid by lia. cbn [mbind PyResult_bind].
        rewrite iloc_set_grid by lia.
        eexists; split; [reflexivity|].
        apply grid_of_ext. intros i j _ _. rewrite length_app. cbn. fold m.
        destruct (decide (i = k /\ j = m)) as [[-> ->]|Hne].
        -- rewrite decide_True by lia.
           destruct k as [|k']; [lia|]. cbn [mass].
           replace (S k' - 1)%nat with k' by lia.
           apply spread_ext; [lia|]. intros j' _.
           rewrite decide_True by lia. reflexivity.
        -- repeat case_decide; try reflexivity; lia.
      * eexists; split; [reflexivity|].
        apply grid_of_ext. intros i j _ Hj.
        rewrite length_app, length_seqZ. cbn. fold k.
        repeat case_decide; try reflexivity; lia.
  - f_equal. apply grid_of_ext. intros i j Hi _.
    rewrite length_seqZ. rewrite decide_True by lia. reflexivity.
Qed.

Lemma iloc_row_last G :
  iloc_row (grid_of G R C) (-1) =
  Ok (zip (seqZ 0 (Z.of_nat C)) (G (R - 1)%nat <$> seq 0 C)).
Proof.
  unfold iloc_row. rewrite grid_of_length, grid_of_columns by assumption.
  unfold py_pos.
  destruct (Z.leb_spec 0 (-1)); [lia|].
  destruct (Z.leb_spec (- Z.of_nat R) (-1)); [|lia].
  cbn [mbind PyResult_bind].
  replace (Z.to_nat (Z.of_nat R + -1)) with (R - 1)%nat by lia.
  rewrite grid_of_lookup by lia. reflexivity.
Qed.
End Propagation.

(** [plinko_stat] returns, for any positive number of rows, the table in
    closed form and its last row without the zero entries. *)
Lemma plinko_stat_closed_form (width rows : Z) (s : option Z) :
  0 < rows ->
  plinko_stat (board width rows s) =
  Ok (grid_of (mass (table_width width) s) (Z.to_nat rows) (table_width width),
      final_distribution (table_width width) s (Z.to_nat rows)).
Proof.
  intros Hrows. unfold plinko_stat, board.
  cbn [max_width number_rows starting_pos as_int mbind PyResult_bind].
  rewrite DataFrame_of_ranges_grid.
  assert (HR : (0 < Z.to_nat rows)%nat) by lia.
  rewrite zero_fill_grid by assumption. cbn [mbind PyResult_bind].
  rewrite place_start_grid by assumption. cbn [mbind PyResult_bind].
  rewrite propagate_grid by assumption. cbn [mbind PyResult_bind].
  rewrite iloc_row_last by assumption. reflexivity.
Qed.

(** The two boards worked out by hand: a start in the middle splits
    evenly over the two neighbours; a start at the edge moves in full to
    the neighbour and splits from there. *)
Example middle_start_splits_evenly :
  exists r0 r1 dist,
    plinko_stat (board 3 2 (Some 2)) = Ok ([r0; r1], dist) /\
    r0 = [0; 1; 0; 0; 0]%Q /\
    Forall2 Qeq r1 [1 # 2; 0; 1 # 2; 0; 0]%Q /\
    Forall2 (fun p q => p.1 = q.1 /\ (p.2 == q.2)%Q) dist
            [(0, 1 # 2); (2, 1 # 2)].
Proof.
  eexists _, _, _. split; [vm_compute; reflexivity|].
  split; [reflexivity|].
  split; repeat constructor.
Qed.

Example edge_start_moves_inward :
  exists r0 r1 r2 dist,
    plinko_stat (board 2 3 (Some 1)) = Ok ([r0; r1; r2], dist) /\
    r0 = [1; 0; 0]%Q /\
    Forall2 Qeq r1 [0; 1; 0]%Q /\
    Forall2 Qeq r2 [1 # 2; 0; 1 # 2]%Q /\
    Forall2 (fun p q => p.1 = q.1 /\ (p.2 == q.2)%Q) dist
            [(0, 1 # 2); (2, 1 # 2)].
Proof.
  eexists _, _, _, _. split; [vm_compute; reflexivity|].
  split; [reflexivity|].
  repeat split; repeat constructor.
Qed.

Lemma table_width_spec (width : Z) :
  0 < width -> Z.of_nat (table_width width) = 2 * width - 1.
Proof. unfold table_width. lia. Qed.

Lemma mass_at_grid (F : nat -> nat -> Q) (R C : nat) (r c : Z) :
  0 <= r < Z.of_nat R -> 0 <= c < Z.of_nat C ->
  mass_at (grid_of F R C) r c = F (Z.to_nat r) (Z.to_nat c).
Proof.
  intros Hr Hc. unfold mass_at. rewrite decide_True by lia.
  rewrite grid_of_cell by lia. reflexivity.
Qed.

Lemma mass_at_grid_off (F : nat -> nat -> Q) (R C : nat) (r c : Z) :
  0 <= r < Z.of_nat R -> ~ 0 <= c < Z.of_nat C ->
  mass_at (grid_of F R C) r c = 0%Q.
Proof.
  intros Hr Hc. unfold mass_at. case_decide; [|reflexivity].
  rewrite grid_of_lookup by lia. cbn.
  rewrite lookup_ge_None_2; [reflexivity|].
  rewrite length_fmap, length_seq. lia.
Qed.

Lemma grid_of_shape (F : nat -> nat -> Q) (R C : nat) :
  has_shape (grid_of F R C) (Z.of_nat R) (Z.of_nat C).
Proof.
  split.
  - rewrite grid_of_length. reflexivity.
  - unfold grid_of. apply Forall_fmap, Forall_forall. intros i _. cbn.
    rewrite length_fmap, length_seq. reflexivity.
Qed.

Lemma zip_columns (C : nat) (f : nat -> Q) :
  zip (seqZ 0 (Z.of_nat C)) (f <$> seq 0 C) =
  (fun j => (Z.of_nat j, f j)) <$> seq 0 C.
Proof.
  unfold seqZ. rewrite Nat2Z.id.
  induction (seq 0 C) as [|j l IH]; [reflexivity|].
  cbn. rewrite Z.add_0_r. f_equal. exact IH.
Qed.

Lemma final_distribution_columns (C : nat) (s : option Z) (R : nat) :
  final_distribution C s R =
  nonzero ((fun j => (Z.of_nat j, mass C s (R - 1) j)) <$> seq 0 C).
Proof. unfold final_distribution. rewrite zip_columns. reflexivity. Qed.

Lemma nonzero_elem (C : nat) (f : nat -> Q) (c : Z) (v : Q) :
  (c, v) ∈ nonzero ((fun j => (Z.of_nat j, f j)) <$> seq 0 C) <->
  0 <= c < Z.of_nat C /\ v = f (Z.to_nat c) /\ ~ (v == 0)%Q.
Proof.
  unfold nonzero. rewrite list_elem_of_filter, list_elem_of_fmap. cbn.
  rewrite negb_True, Is_true_true, Qeq_bool_iff.
  split.
  - intros (Hnz & j & [= -> ->] & Hj%elem_of_seq).
    rewrite Nat2Z.id. split; [lia|]. split; [reflexivity|assumption].
  - intros (Hc & -> & Hnz). split; [assumption|].
    exists (Z.to_nat c). split.
    + f_equal. lia.
    + apply elem_of_seq. lia.
Qed.

Lemma sorted_filter {A} (Rel : A -> A -> Prop) (P : A -> Prop)
    `{!forall x, Decision (P x)} (l : list A) :
  StronglySorted Rel l -> StronglySorted Rel (filter P l).
Proof.
  induction 1 as [|x l Hl IH Hx]; [constructor|].
  rewrite filter_cons. case_decide; [|assumption].
  constructor; [assumption|].
  apply Forall_forall. intros y [_ Hy]%list_elem_of_filter.
  rewrite Forall_forall in Hx. auto.
Qed.

Lemma sorted_columns (f : nat -> Q) (a n : nat) :
  StronglySorted (fun p q : Z * Q => p.1 < q.1)
    ((fun j => (Z.of_nat j, f j)) <$> seq a n).
Proof.
  revert a. induction n as [|n IH]; intros a; cbn; constructor.
  - apply IH.
  - apply Forall_fmap, Forall_forall. intros j Hj%elem_of_seq. cbn. lia.
Qed.

Lemma nonzero_sorted (C : nat) (f : nat -> Q) :
  StronglySorted Z.lt
    (nonzero ((fun j => (Z.of_nat j, f j)) <$> seq 0 C)).*1.
Proof.
  apply (StronglySorted_fmap fst (fun p q : Z * Q => p.1 < q.1)).
  - auto.
  - apply sorted_filter, sorted_columns.
Qed.

Lemma nonzero_none (f : nat -> Q) (a n : nat) :
  (forall j, (a <= j < a + n)%nat -> (f j == 0)%Q) ->
  nonzero ((fun j => (Z.of_nat j, f j)) <$> seq a n) = [].
Proof.
  revert a. induction n as [|n IH]; intros a H; [reflexivity|].
  cbn [seq fmap list_fmap]. unfold nonzero in *.
  rewrite filter_cons_False.
  - apply IH. intros j Hj. apply H. lia.
  - cbn. rewrite negb_True, Is_true_true, Qeq_bool_iff.
    intros Hnz. apply Hnz, H. lia.
Qed.

Lemma nonzero_impulse (C : nat) (s : Z) :
  1 <= s <= Z.of_nat C ->
  nonzero ((fun j => (Z.of_nat j, impulse (Some s) j)) <$> seq 0 C) =
  [(s - 1, 1%Q)].
Proof.
  intros Hs.
  set (k := Z.to_nat (s - 1)).
  replace C with (k + S (C - S k))%nat by lia.
  rewrite seq_app, fmap_app. cbn [seq fmap list_fmap].
  unfold nonzero. rewrite filter_app, filter_cons_True.
  - fold (nonzero ((fun j => (Z.of_nat j, impulse (Some s) j)) <$> seq 0 k)).
    fold (nonzero ((fun j => (Z.of_nat j, impulse (Some s) j))
                     <$> seq (S (0 + k)) (C - S k))).
    rewrite !nonzero_none.
    + cbn. unfold impulse. rewrite decide_True by (f_equal; lia).
      do 2 f_equal. lia.
    + intros j Hj. unfold impulse.
      rewrite decide_False; [reflexivity|]. intros [= ?]. lia.
    + intros j Hj. unfold impulse.
      rewrite decide_False; [reflexivity|]. intros [= ?]. lia.
  - cbn. unfold impulse. rewrite decide_True by (f_equal; lia).
    exact I.
Qed.

(** ** Row 0 and the one-row table *)

(** C7 as the code has it: the table is rows x (2*width - 1); row 0 holds
    1 at column index [startingSlot - 1] (the column whose 1-based count
    is the starting slot) and 0 in every other column. *)
Theorem initial_row_at_slot_minus_one (width rows startingSlot : Z) :
  valid_board width rows startingSlot ->
  exists df dist,
    plinko_stat (board width rows (Some startingSlot)) = Ok (df, dist) /\
    has_shape df rows (2 * width - 1) /\
    forall c, 0 <= c < 2 * width - 1 ->
      mass_at df 0 c = if decide (c = startingSlot - 1) then 1%Q else 0%Q.
Proof.
  intros (Hw & Hr & Hs).
  eexists _, _. split; [apply plinko_stat_closed_form; assumption|].
  split.
  - rewrite <- table_width_spec by assumption.
    rewrite <- (Z2Nat.id rows) at 2 by lia. apply grid_of_shape.
  - intros c Hc. rewrite mass_at_grid by (rewrite ?table_width_spec; lia).
    change (Z.to_nat 0) with 0%nat. cbn [mass]. unfold impulse.
    repeat case_decide; simplify_eq; try reflexivity; exfalso;
      first [lia | match goal with
                   | H : Some _ <> Some _ |- _ => apply H; f_equal; lia
                   end].
Qed.

Lemma initial_row_at_slot_minus_one_witness :
  exists df dist,
    plinko_stat (board 3 2 (Some 2)) = Ok (df, dist) /\
    has_shape df 2 (2 * 3 - 1) /\
    forall c, 0 <= c < 2 * 3 - 1 ->
      mass_at df 0 c = if decide (c = 2 - 1) then 1%Q else 0%Q.
Proof.
  apply (initial_row_at_slot_minus_one 3 2 2).
  unfold valid_board. lia.
Defined.

(** C7 as stated fails: on the board of width 3 with one row and starting
    slot 2, row 0 does not hold its mass at column index 2. *)
Lemma initial_row_not_at_slot_index :
  ~ (forall df dist,
       plinko_stat (board 3 1 (Some 2)) = Ok (df, dist) ->
       forall c, 0 <= c < 2 * 3 - 1 ->
         Qeq (mass_at df 0 c) (if decide (c = 2) then 1%Q else 0%Q)).
Proof.
  intros H.
  specialize (H _ _ (plinko_stat_closed_form 3 1 (Some 2) eq_refl) 2).
  specialize (H ltac:(lia)).
  vm_compute in H. discriminate H.
Qed.

(** C5 as the code has it: with one row the final distribution is the
    single entry keyed by the column index [startingSlot - 1], with
    mass 1. *)
Theorem one_row_distribution (width startingSlot : Z) :
  valid_board width 1 startingSlot ->
  exists df,
    plinko_stat (board width 1 (Some startingSlot)) =
    Ok (df, [(startingSlot - 1, 1%Q)]).
Proof.
  intros (Hw & _ & Hs).
  eexists. rewrite plinko_stat_closed_form by lia. do 2 f_equal.
  rewrite final_distribution_columns. cbn [Z.to_nat Pos.to_nat Pos.iter_op Nat.sub mass].
  apply nonzero_impulse. rewrite table_width_spec; lia.
Qed.

Lemma one_row_distribution_witness :
  exists df, plinko_stat (board 3 1 (Some 2)) = Ok (df, [(2 - 1, 1%Q)]).
Proof.
  apply (one_row_distribution 3 2). unfold valid_board. lia.
Defined.

(** C5 as stated fails: on the board of width 3 with starting slot 2 the
    one-row distribution is not keyed by 2. *)
Lemma one_row_not_keyed_by_slot :
  ~ (exists df, plinko_stat (board 3 1 (Some 2)) = Ok (df, [(2, 1%Q)])).
Proof.
  intros [df H].
  rewrite (plinko_stat_closed_form 3 1 (Some 2) eq_refl) in H.
  vm_compute in H. discriminate H.
Qed.

(** ** The final distribution *)

(** C8: the final distribution lists exactly the columns of the last row
    whose mass is non-zero, each with its column index as key and its
    mass as value, by ascending column index. *)
Theorem final_distribution_is_nonzero_last_row (width rows startingSlot : Z) :
  valid_board width rows startingSlot ->
  exists df dist row,
    plinko_stat (board width rows (Some startingSlot)) = Ok (df, dist) /\
    last df = Some row /\
    (forall c v, (c, v) ∈ dist <->
       0 <= c /\ row !! Z.to_nat c = Some v /\ ~ (v == 0)%Q) /\
    StronglySorted Z.lt dist.*1.
Proof.
  intros (Hw & Hr & Hs).
  eexists _, _, _. split; [apply plinko_stat_closed_form; assumption|].
  rewrite final_distribution_columns.
  split; [|split].
  - rewrite last_lookup, grid_of_length.
    replace (pred (Z.to_nat rows)) with (Z.to_nat rows - 1)%nat by lia.
    apply grid_of_lookup. lia.
  - intros c v. rewrite nonzero_elem, list_lookup_fmap.
    split.
    + intros (Hc & -> & Hnz). split; [lia|]. split; [|assumption].
      rewrite lookup_seq_lt by lia. reflexivity.
    + intros (Hc & Hl & Hnz).
      destruct (decide (Z.to_nat c < table_width width)%nat) as [Hlt|Hge].
      * rewrite lookup_seq_lt in Hl by assumption. cbn in Hl.
        injection Hl as <-. split; [lia|]. split; [reflexivity|assumption].
      * rewrite lookup_seq_ge in Hl by lia. discriminate Hl.
  - apply nonzero_sorted.
Qed.

Lemma final_distribution_is_nonzero_last_row_witness :
  exists df dist row,
    plinko_stat (board 2 3 (Some 1)) = Ok (df, dist) /\
    last df = Some row /\
    (forall c v, (c, v) ∈ dist <->
       0 <= c /\ row !! Z.to_nat c = Some v /\ ~ (v == 0)%Q) /\
    StronglySorted Z.lt dist.*1.
Proof.
  apply (final_distribution_is_nonzero_last_row 2 3 1).
  unfold valid_board. lia.
Defined.

(** ** The propagation rule *)

Lemma mass_at_table (F : nat -> nat -> Q) (R C : nat) (r c : Z) :
  0 <= r < Z.of_nat R ->
  mass_at (grid_of F R C) r c =
  if decide (0 <= c < Z.of_nat C) then F (Z.to_nat r) (Z.to_nat c) else 0%Q.
Proof.
  intros Hr. case_decide.
  - apply mass_at_grid; assumption.
  - apply mass_at_grid_off; assumption.
Qed.

(** Every cell below row 0, in terms of the masses of the row above:
    the left source counts in full into column 1, the right source in
    full into the column before the last, and by half everywhere else. *)
Lemma propagation_rule (width rows : Z) (s : option Z) (r c : Z) :
  0 < width -> 1 <= r < rows -> 0 <= c < 2 * width - 1 ->
  let df := grid_of (mass (table_width width) s) (Z.to_nat rows)
                    (table_width width) in
  (mass_at df r c ==
   (if decide (c = 1)%Z then mass_at df (r - 1) (c - 1)
    else mass_at df (r - 1) (c - 1) / 2) +
   (if decide (c = 2 * width - 3)%Z then mass_at df (r - 1) (c + 1)
    else mass_at df (r - 1) (c + 1) / 2))%Q.
Proof.
  intros Hw Hr Hc df. unfold df.
  pose proof (table_width_spec width Hw) as HC.
  rewrite !mass_at_table by lia.
  rewrite decide_True by lia.
  replace (Z.to_nat r) with (S (Z.to_nat (r - 1))) by lia.
  cbn [mass]. unfold spread.
  replace (Z.to_nat (c - 1)) with (Z.to_nat c - 1)%nat by lia.
  replace (Z.to_nat (c + 1)) with (Z.to_nat c + 1)%nat by lia.
  set (prev := mass (table_width width) s (Z.to_nat (r - 1))).
  generalize (prev (Z.to_nat c - 1)%nat) (prev (Z.to_nat c + 1)%nat).
  intros a b.
  repeat case_decide; try (exfalso; lia); field.
Qed.

(** C6 as the code has it: away from destination columns 1 and
    [2*width - 3], a cell is half the mass of its left source plus half
    the mass of its right source, a source off the table counting as
    zero; this covers the first and the last column. *)
Theorem half_split_rule (width rows startingSlot : Z) :
  valid_board width rows startingSlot ->
  exists df dist,
    plinko_stat (board width rows (Some startingSlot)) = Ok (df, dist) /\
    forall r c, 1 <= r < rows -> 0 <= c < 2 * width - 1 ->
      c <> 1 -> c <> 2 * width - 3 ->
      (mass_at df r c ==
       mass_at df (r - 1) (c - 1) / 2 + mass_at df (r - 1) (c + 1) / 2)%Q.
Proof.
  intros (Hw & Hrows & Hs).
  eexists _, _. split; [apply plinko_stat_closed_form; assumption|].
  intros r c Hr Hc H1 H2.
  rewrite (propagation_rule width rows (Some startingSlot) r c) by assumption.
  rewrite !decide_False by assumption. reflexivity.
Qed.

Lemma half_split_rule_witness :
  exists df dist,
    plinko_stat (board 3 2 (Some 2)) = Ok (df, dist) /\
    forall r c, 1 <= r < 2 -> 0 <= c < 2 * 3 - 1 ->
      c <> 1 -> c <> 2 * 3 - 3 ->
      (mass_at df r c ==
       mass_at df (r - 1) (c - 1) / 2 + mass_at df (r - 1) (c + 1) / 2)%Q.
Proof.
  apply (half_split_rule 3 2 2). unfold valid_board. lia.
Defined.

(** C6 as stated fails: column 1 of a board of width 2 is neither the
    first nor the last column, yet it receives the whole mass of
    column 0. *)
Lemma half_split_fails_next_to_edge :
  ~ (forall df dist,
       plinko_stat (board 2 2 (Some 1)) = Ok (df, dist) ->
       forall r c, 1 <= r < 2 -> 0 <= c < 2 * 2 - 1 ->
         c <> 0 -> c <> 2 * 2 - 2 ->
         (mass_at df r c ==
          mass_at df (r - 1) (c - 1) / 2 + mass_at df (r - 1) (c + 1) / 2)%Q).
Proof.
  intros H.
  specialize (H _ _ (plinko_stat_closed_form 2 2 (Some 1) eq_refl) 1 1).
  specialize (H ltac:(lia) ltac:(lia) ltac:(lia) ltac:(lia)).
  vm_compute in H. discriminate H.
Qed.

(** C2 as the code has it: the full-mass exception sits at the columns
    next to the edges.  Column 1 receives the whole mass of the first
    column and column [2*width - 3] the whole mass of the last column
    (on a board of width 2 these are the same column, which then
    receives both in full); the first and the last column themselves
    receive half the mass of their only neighbour. *)
Theorem edge_mass_moves_inward_in_full (width rows startingSlot : Z) :
  valid_board width rows startingSlot ->
  exists df dist,
    plinko_stat (board width rows (Some startingSlot)) = Ok (df, dist) /\
    forall r, 1 <= r < rows ->
      (2 <= width ->
       (mass_at df r 1 ==
        mass_at df (r - 1) 0 +
        (if decide (width = 2)%Z then mass_at df (r - 1) 2
         else mass_at df (r - 1) 2 / 2))%Q) /\
      (2 <= width ->
       (mass_at df r (2 * width - 3) ==
        (if decide (width = 2)%Z then mass_at df (r - 1) (2 * width - 4)
         else mass_at df (r - 1) (2 * width - 4) / 2) +
        mass_at df (r - 1) (2 * width - 2))%Q) /\
      (mass_at df r 0 == mass_at df (r - 1) 1 / 2)%Q /\
      (mass_at df r (2 * width - 2) ==
       mass_at df (r - 1) (2 * width - 3) / 2)%Q.
Proof.
  intros (Hw & Hrows & Hs).
  eexists _, _. split; [apply plinko_stat_closed_form; assumption|].
  intros r Hr.
  pose proof (table_width_spec width Hw) as HC.
  repeat split.
  - intros H2.
    rewrite (propagation_rule width rows (Some startingSlot) r 1) by lia.
    rewrite decide_True by reflexivity.
    replace (1 - 1) with 0 by lia. replace (1 + 1) with 2 by lia.
    repeat case_decide; try (exfalso; lia); reflexivity.
  - intros H2.
    rewrite (propagation_rule width rows (Some startingSlot) r
               (2 * width - 3)) by lia.
    rewrite (decide_True (P := 2 * width - 3 = 2 * width - 3)) by reflexivity.
    replace (2 * width - 3 - 1) with (2 * width - 4) by lia.
    replace (2 * width - 3 + 1) with (2 * width - 2) by lia.
    repeat case_decide; try (exfalso; lia); reflexivity.
  - rewrite (propagation_rule width rows (Some startingSlot) r 0) by lia.
    rewrite (mass_at_table _ _ _ (r - 1) (0 - 1)) by lia.
    rewrite (decide_False (P := 0 <= 0 - 1 < _)) by lia.
    replace (0 + 1) with 1 by lia.
    rewrite !mass_at_table by lia.
    repeat case_decide; try (exfalso; lia); field.
  - rewrite (propagation_rule width rows (Some startingSlot) r
               (2 * width - 2)) by lia.
    rewrite (mass_at_table _ _ _ (r - 1) (2 * width - 2 + 1)) by lia.
    rewrite (decide_False (P := 0 <= 2 * width - 2 + 1 < _)) by lia.
    replace (2 * width - 2 - 1) with (2 * width - 3) by lia.
    rewrite !mass_at_table by lia.
    repeat case_decide; try (exfalso; lia); field.
Qed.

Lemma edge_mass_moves_inward_in_full_witness :
  exists df dist,
    plinko_stat (board 2 3 (Some 1)) = Ok (df, dist) /\
    forall r, 1 <= r < 3 ->
      (2 <= 2 ->
       (mass_at df r 1 ==
        mass_at df (r - 1) 0 +
        (if decide (2 = 2)%Z then mass_at df (r - 1) 2
         else mass_at df (r - 1) 2 / 2))%Q) /\
      (2 <= 2 ->
       (mass_at df r (2 * 2 - 3) ==
        (if decide (2 = 2)%Z then mass_at df (r - 1) (2 * 2 - 4)
         else mass_at df (r - 1) (2 * 2 - 4) / 2) +
        mass_at df (r - 1) (2 * 2 - 2))%Q) /\
      (mass_at df r 0 == mass_at df (r - 1) 1 / 2)%Q /\
      (mass_at df r (2 * 2 - 2) ==
       mass_at df (r - 1) (2 * 2 - 3) / 2)%Q.
Proof.
  apply (edge_mass_moves_inward_in_full 2 3 1). unfold valid_board. lia.
Defined.

(** C2 as stated fails: on the board of width 2 started at slot 2, the
    first column of row 1 holds half, not all, of the mass of its
    neighbour in row 0. *)
Lemma edge_column_receives_half :
  ~ (forall df dist,
       plinko_stat (board 2 2 (Some 2)) = Ok (df, dist) ->
       forall r, 1 <= r < 2 ->
         (mass_at df r 0 == mass_at df (r - 1) 1)%Q /\
         (mass_at df r (2 * 2 - 2) == mass_at df (r - 1) (2 * 2 - 3))%Q).
Proof.
  intros H.
  specialize (H _ _ (plinko_stat_closed_form 2 2 (Some 2) eq_refl) 1).
  specialize (H ltac:(lia)). destruct H as [H _].
  vm_compute in H. discriminate H.
Qed.

(** ** Signs *)

Lemma impulse_nonneg (s : option Z) (j : nat) : (0 <= impulse s j)%Q.
Proof. unfold impulse. case_decide; lra. Qed.

(** One propagation step keeps a non-negative row non-negative. *)
Lemma spread_nonneg (C : nat) (prev : nat -> Q) (j : nat) :
  (forall j', (0 <= prev j')%Q) -> (0 <= spread C prev j)%Q.
Proof.
  intros H. unfold spread.
  pose proof (H (j - 1)%nat). pose proof (H (j + 1)%nat).
  assert (forall q, (q / 2 == q * (1 # 2))%Q) as Hhalf
    by (intros q; field).
  repeat case_decide; rewrite ?Hhalf; lra.
Qed.

Lemma mass_nonneg (C : nat) (s : option Z) (r j : nat) :
  (0 <= mass C s r j)%Q.
Proof.
  revert j. induction r as [|r IH]; intros j; cbn [mass].
  - apply impulse_nonneg.
  - apply spread_nonneg, IH.
Qed.

Lemma grid_of_Forall (P : Q -> Prop) (F : nat -> nat -> Q) (R C : nat) :
  (forall i j, P (F i j)) -> Forall (Forall P) (grid_of F R C).
Proof.
  intros H. unfold grid_of.
  apply Forall_fmap, Forall_forall. intros i _. cbn.
  apply Forall_fmap, Forall_forall. intros j _. cbn. apply H.
Qed.

(** C9: every entry of the returned table is non-negative. *)
Theorem table_nonnegative (width rows startingSlot : Z) :
  valid_board width rows startingSlot ->
  exists df dist,
    plinko_stat (board width rows (Some startingSlot)) = Ok (df, dist) /\
    Forall (Forall (fun v => (0 <= v)%Q)) df.
Proof.
  intros (Hw & Hrows & Hs).
  eexists _, _. split; [apply plinko_stat_closed_form; assumption|].
  apply grid_of_Forall. intros i j. apply mass_nonneg.
Qed.

Lemma table_nonnegative_witness :
  exists df dist,
    plinko_stat (board 3 4 (Some 1)) = Ok (df, dist) /\
    Forall (Forall (fun v => (0 <= v)%Q)) df.
Proof.
  apply (table_nonnegative 3 4 1). unfold valid_board. lia.
Defined.

(** ** Starting slots outside the board *)

Lemma spread_zero (C : nat) (prev : nat -> Q) (j : nat) :
  (forall j', (prev j' == 0)%Q) -> (spread C prev j == 0)%Q.
Proof.
  intros H. unfold spread.
  pose proof (H (j - 1)%nat) as H1. pose proof (H (j + 1)%nat) as H2.
  repeat case_decide; rewrite ?H1, ?H2; field.
Qed.

Lemma mass_unplaced (C : nat) (s : option Z) (r j : nat) :
  (forall j', impulse s j' = 0%Q) -> (mass C s r j == 0)%Q.
Proof.
  intros Hs. revert j. induction r as [|r IH]; intros j; cbn [mass].
  - rewrite Hs. reflexivity.
  - apply spread_zero, IH.
Qed.

Lemma impulse_nonpositive (s : Z) (j : nat) :
  s <= 0 -> impulse (Some s) j = 0%Q.
Proof.
  intros Hs. unfold impulse.
  rewrite decide_False; [reflexivity|]. intros [= ?]. lia.
Qed.

(** C10: a starting slot that is zero or negative passes the checks of
    [pi_init] without an error message, and [plinko_stat] then returns a
    table of zeros, row 0 included, and an empty final distribution. *)
Theorem nonpositive_slot_gives_zero_table (width rows startingSlot : Z) :
  startingSlot <= 0 -> 0 < width -> 0 < rows ->
  exists df,
    pi_init new_plugin
      {| NumberSlots := Some width; NumberRows := Some rows;
         StartingPos := Some startingSlot |} =
    Ok {| max_width := Some width; number_rows := Some rows;
          starting_pos := Some startingSlot;
          is_initialized := None; error_messages := [];
          df := Some df; last_row := Some [] |} /\
    plinko_stat (board width rows (Some startingSlot)) = Ok (df, []) /\
    has_shape df rows (2 * width - 1) /\
    Forall (Forall (fun v => (v == 0)%Q)) df.
Proof.
  intros Hs Hw Hrows.
  assert (Hdist : final_distribution (table_width width) (Some startingSlot)
                    (Z.to_nat rows) = []).
  { rewrite final_distribution_columns. apply nonzero_none.
    intros j _. apply mass_unplaced. intros j'.
    apply impulse_nonpositive; assumption. }
  pose proof (plinko_stat_closed_form width rows (Some startingSlot) Hrows)
    as Hstat.
  rewrite Hdist in Hstat.
  eexists. split; [|split; [exact Hstat|split]].
  - unfold pi_init, new_plugin.
    cbn [NumberSlots NumberRows StartingPos max_width number_rows
         starting_pos is_initialized error_messages df last_row
         as_int mbind PyResult_bind].
    destruct (Z.ltb_spec width startingSlot); [lia|].
    cbn [max_width number_rows starting_pos is_initialized error_messages
         df last_row mbind PyResult_bind].
    unfold board in Hstat. rewrite Hstat. reflexivity.
  - rewrite <- table_width_spec by assumption.
    rewrite <- (Z2Nat.id rows) at 2 by lia. apply grid_of_shape.
  - apply grid_of_Forall. intros i j. apply mass_unplaced. intros j'.
    apply impulse_nonpositive; assumption.
Qed.

Lemma nonpositive_slot_gives_zero_table_witness :
  exists df,
    pi_init new_plugin
      {| NumberSlots := Some 3; NumberRows := Some 2;
         StartingPos := Some (-1) |} =
    Ok {| max_width := Some 3; number_rows := Some 2;
          starting_pos := Some (-1);
          is_initialized := None; error_messages := [];
          df := Some df; last_row := Some [] |} /\
    plinko_stat (board 3 2 (Some (-1))) = Ok (df, []) /\
    has_shape df 2 (2 * 3 - 1) /\
    Forall (Forall (fun v => (v == 0)%Q)) df.
Proof.
  apply (nonpositive_slot_gives_zero_table 3 2 (-1)); lia.
Defined.

(** ** Configuration errors *)

(** C3 fails on the code: with [StartingPos] 5 on a board of 3 slots
    [pi_init] emits the error message and then goes on to call
    [plinko_stat], which stores a table built from the rejected value
    (the impulse sits in column 4, and the final distribution has the
    whole mass in column 3); with [StartingPos] absent the message is
    emitted and a table of zeros is stored. *)
Theorem pi_init_computes_after_error :
  (exists d v,
     pi_init new_plugin
       {| NumberSlots := Some 3; NumberRows := Some 2;
          StartingPos := Some 5 |} =
     Ok {| max_width := Some 3; number_rows := Some 2;
           starting_pos := Some 5;
           is_initialized := Some false;
           error_messages :=
             ["Starting Position cannot be greater than the number of slots."%string];
           df := Some d; last_row := Some [(3, v)] |} /\
     has_shape d 2 5 /\ mass_at d 0 4 = 1%Q /\ (v == 1)%Q) /\
  (exists d,
     pi_init new_plugin
       {| NumberSlots := Some 3; NumberRows := Some 2;
          StartingPos := None |} =
     Ok {| max_width := Some 3; number_rows := Some 2;
           starting_pos := None;
           is_initialized := Some false;
           error_messages := ["Starting Position cannot be empty."%string];
           df := Some d; last_row := Some [] |} /\
     has_shape d 2 5).
Proof.
  split.
  - eexists _, _. split; [vm_compute; reflexivity|].
    repeat split; repeat constructor.
  - eexists. split; [vm_compute; reflexivity|].
    repeat split; repeat constructor.
Qed.

(** ** Mirror symmetry *)

(** The two contributions of [new_value] may be added in either order
    with the very same result. *)
Lemma Qplus_swap (a b : Q) : (0 + a + b)%Q = (0 + b + a)%Q.
Proof.
  destruct a as [na da], b as [nb db]. unfold Qplus. cbn [Qnum Qden].
  rewrite !Pos.mul_1_l. f_equal; [ring | apply Pos.mul_comm].
Qed.

Lemma spread_mirror (C : nat) (prev prev' : nat -> Q) (j : nat) :
  (j < C)%nat ->
  (forall j', (j' < C)%nat -> prev j' = prev' (C - 1 - j')%nat) ->
  spread C prev j = spread C prev' (C - 1 - j)%nat.
Proof.
  intros Hj H. unfold spread.
  repeat case_decide; try (exfalso; lia);
    rewrite ?H by lia;
    (etransitivity; [apply Qplus_swap|]);
    repeat (f_equal; try lia).
Qed.

Lemma impulse_mirror (width k : Z) (j : nat) :
  0 < width -> (j < table_width width)%nat ->
  impulse (Some k) j =
  impulse (Some (2 * width - k)) (table_width width - 1 - j)%nat.
Proof.
  intros Hw Hj. pose proof (table_width_spec width Hw) as HC.
  unfold impulse.
  repeat case_decide; simplify_eq; try reflexivity; exfalso;
    match goal with
    | H : Some _ <> Some _ |- _ => apply H; f_equal; lia
    end.
Qed.

Lemma mass_mirror (width k : Z) (r j : nat) :
  0 < width -> (j < table_width width)%nat ->
  mass (table_width width) (Some k) r j =
  mass (table_width width) (Some (2 * width - k)) r
       (table_width width - 1 - j)%nat.
Proof.
  intros Hw. revert j. induction r as [|r IH]; intros j Hj; cbn [mass].
  - apply impulse_mirror; assumption.
  - apply spread_mirror; [assumption|]. intros j' Hj'. apply IH, Hj'.
Qed.

(** C4 as the code has it: the column of slot [k] is [k - 1], whose
    mirror image [2*W - 1 - k] is the column of slot [2*W - k]; the final
    distribution for slot [k] is the mirror image, column [c] against
    column [2*W - 2 - c] with the same mass, of the one [plinko_stat]
    returns for slot [2*W - k]. *)
Theorem final_distribution_mirror (W rows k : Z) :
  valid_board W rows k ->
  exists df1 dist1 df2 dist2,
    plinko_stat (board W rows (Some k)) = Ok (df1, dist1) /\
    plinko_stat (board W rows (Some (2 * W - k))) = Ok (df2, dist2) /\
    forall c v, (c, v) ∈ dist1 <-> (2 * W - 2 - c, v) ∈ dist2.
Proof.
  intros (Hw & Hrows & Hk).
  pose proof (table_width_spec W Hw) as HC.
  eexists _, _, _, _.
  split; [apply plinko_stat_closed_form; assumption|].
  split; [apply plinko_stat_closed_form; assumption|].
  intros c v. rewrite !final_distribution_columns, !nonzero_elem.
  split.
  - intros (Hc & -> & Hnz). split; [lia|]. split; [|assumption].
    rewrite mass_mirror by lia. f_equal. lia.
  - intros (Hc & -> & Hnz). split; [lia|]. split; [|assumption].
    rewrite (mass_mirror W k) by lia. f_equal. lia.
Qed.

Lemma final_distribution_mirror_witness :
  exists df1 dist1 df2 dist2,
    plinko_stat (board 3 4 (Some 1)) = Ok (df1, dist1) /\
    plinko_stat (board 3 4 (Some (2 * 3 - 1))) = Ok (df2, dist2) /\
    forall c v, (c, v) ∈ dist1 <-> (2 * 3 - 2 - c, v) ∈ dist2.
Proof.
  apply (final_distribution_mirror 3 4 1). unfold valid_board. lia.
Defined.

(** C4 as stated fails: on the board of width 2 with one row, slot 1
    puts the mass in column 0, while slot [2 + 1 - 1] puts it in column 1,
    whose mirror image is column 1. *)
Lemma final_distribution_not_mirror_of_reflected_slot :
  ~ (forall df1 dist1 df2 dist2,
       plinko_stat (board 2 1 (Some 1)) = Ok (df1, dist1) ->
       plinko_stat (board 2 1 (Some (2 + 1 - 1))) = Ok (df2, dist2) ->
       forall c v, (c, v) ∈ dist1 <-> (2 * 2 - 2 - c, v) ∈ dist2).
Proof.
  intros H.
  assert (E1 : plinko_stat (board 2 1 (Some 1)) =
               Ok ([[1%Q; 0%Q; 0%Q]], [(0, 1%Q)]))
    by (vm_compute; reflexivity).
  assert (E2 : plinko_stat (board 2 1 (Some (2 + 1 - 1))) =
               Ok ([[0%Q; 1%Q; 0%Q]], [(1, 1%Q)]))
    by (vm_compute; reflexivity).
  destruct (H _ _ _ _ E1 E2 0 1%Q) as [H1 _].
  specialize (H1 ltac:(apply list_elem_of_singleton; reflexivity)).
  apply list_elem_of_singleton in H1. discriminate H1.
Qed.

(** ** Conservation of mass *)


Lemma sumf_ext (f g : nat -> Q) (n : nat) :
  (forall i, (i < n)%nat -> (f i == g i)%Q) -> (sumf f n == sumf g n)%Q.
Proof.
  induction n as [|n IH]; intros H; cbn [sumf]; [reflexivity|].
  rewrite IH, (H n) by auto with lia. reflexivity.
Qed.

Lemma sumf_plus (f g : nat -> Q) (n : nat) :
  (sumf (fun i => f i + g i) n == sumf f n + sumf g n)%Q.
Proof.
  induction n as [|n IH]; cbn [sumf]; [reflexivity|].
  rewrite IH. ring.
Qed.

Lemma sumf_half (f : nat -> Q) (n : nat) :
  (sumf (fun i => f i / 2) n == sumf f n / 2)%Q.
Proof.
  induction n as [|n IH]; cbn [sumf]; [reflexivity|].
  rewrite IH. field.
Qed.

Lemma sumf_shift (f : nat -> Q) (n : nat) :
  (sumf f (S n) == f 0%nat + sumf (fun i => f (S i)) n)%Q.
Proof.
  induction n as [|n IH]; [cbn [sumf]; ring|].
  change (sumf f (S (S n))) with (sumf f (S n) + f (S n))%Q.
  rewrite IH. cbn [sumf]. ring.
Qed.

Lemma spread_split (C : nat) (prev : nat -> Q) (j : nat) :
  (spread C prev j == from_left prev j + from_right C prev j)%Q.
Proof.
  unfold spread, from_left, from_right.
  destruct j as [|[|j']]; cbn [Nat.sub];
    repeat case_decide; try (exfalso; lia);
    rewrite ?Nat.sub_0_r; field.
Qed.

(** One propagation step on a table of at least two columns keeps the
    sum of the row. *)
Lemma spread_conserves (m : nat) (prev : nat -> Q) :
  (sumf (spread (S (S m)) prev) (S (S m)) == sumf prev (S (S m)))%Q.
Proof.
  set (C := S (S m)).
  rewrite (sumf_ext _ (fun j => from_left prev j + from_right C prev j)%Q)
    by (intros; apply spread_split).
  rewrite sumf_plus.
  assert (HL : (sumf (from_left prev) C ==
                prev 0%nat + sumf (fun i => prev (S i)) m / 2)%Q).
  { unfold C. rewrite sumf_shift, sumf_shift. cbn [from_left].
    rewrite sumf_half. ring. }
  assert (HR : (sumf (from_right C prev) C ==
                sumf (fun i => prev (S i)) m / 2 + prev (S m))%Q).
  { unfold C. cbn [sumf].
    rewrite <- sumf_half.
    rewrite (sumf_ext (from_right (S (S m)) prev)
                      (fun i => prev (S i) / 2)%Q).
    - unfold from_right.
      rewrite (decide_False (P := (S (S m) <= m + 1)%nat)) by lia.
      rewrite (decide_True (P := (m + 2 = S (S m))%nat)) by lia.
      rewrite (decide_True (P := (S (S m) <= S m + 1)%nat)) by lia.
      replace (m + 1)%nat with (S m) by lia. ring.
    - intros i Hi. unfold from_right.
      rewrite !decide_False by lia.
      replace (i + 1)%nat with (S i) by lia. reflexivity. }
  rewrite HL, HR. unfold C.
  change (sumf prev (S (S m))) with (sumf prev (S m) + prev (S m))%Q.
  rewrite (sumf_shift prev m). field.
Qed.

Lemma impulse_sum (s : Z) (n : nat) :
  (sumf (impulse (Some s)) n ==
   if decide (1 <= s <= Z.of_nat n)%Z then 1 else 0)%Q.
Proof.
  induction n as [|n IH]; cbn [sumf].
  - rewrite decide_False by lia. reflexivity.
  - rewrite IH. unfold impulse.
    repeat case_decide; simplify_eq; try (exfalso; lia); try ring.
    exfalso. match goal with
             | H : Some _ <> Some _ |- _ => apply H; f_equal; lia
             end.
Qed.



(** C1 fails on the code at the narrowest board: with one slot the only
    column has no neighbour inside the table, so the step from row 0 to
    row 1 drops the whole mass; the final distribution is empty. *)
Theorem mass_lost_on_one_slot_board :
  valid_board 1 2 1 /\
  exists row0 row1,
    plinko_stat (board 1 2 (Some 1)) = Ok ([row0; row1], []) /\
    (total row0 == 1)%Q /\ (total row1 == 0)%Q /\
    ~ (total row1 == total row0)%Q.
Proof.
  split; [unfold valid_board; lia|].
  eexists _, _. split; [vm_compute; reflexivity|].
  repeat split; vm_compute; congruence.
Qed.


(** ** The final distribution as a probability distribution *)







(** ** Where the mass can be *)

Lemma spread_zero_local (C : nat) (prev : nat -> Q) (j : nat) :
  ((1 <= j)%nat -> (prev (j - 1)%nat == 0)%Q) ->
  ((j + 1 < C)%nat -> (prev (j + 1)%nat == 0)%Q) ->
  (spread C prev j == 0)%Q.
Proof.
  intros HL HR. unfold spread.
  repeat case_decide; rewrite ?HL, ?HR by assumption; field.
Qed.

Lemma mass_zero_off_cone (C : nat) (s : Z) (r j : nat) :
  Z.of_nat r < Z.abs (Z.of_nat j - (s - 1)) \/
  (Z.of_nat j - (s - 1) - Z.of_nat r) mod 2 = 1 ->
  (mass C (Some s) r j == 0)%Q.
Proof.
  revert j. induction r as [|r IH]; intros j H; cbn [mass].
  - unfold impulse. rewrite decide_False; [reflexivity|].
    intros [= E]. destruct H as [H|H].
    + lia.
    + replace (Z.of_nat j - (s - 1) - Z.of_nat 0) with 0 in H by lia.
      discriminate H.
  - apply spread_zero_local; intros Hj; apply IH.
    + destruct H as [H|H]; [left; lia|right].
      replace (Z.of_nat (j - 1) - (s - 1) - Z.of_nat r)
        with (Z.of_nat j - (s - 1) - Z.of_nat (S r)) by lia.
      exact H.
    + destruct H as [H|H]; [left; lia|right].
      replace (Z.of_nat (j + 1) - (s - 1) - Z.of_nat r)
        with (Z.of_nat j - (s - 1) - Z.of_nat (S r) + 1 * 2) by lia.
      rewrite Z.mod_add by lia. exact H.
Qed.

(** X3: mass moves one column per row and alternates parity.  A cell of
    row [r] that holds mass lies within [r] columns of the starting
    column [startingSlot - 1], and its distance to it has the parity
    of [r]. *)
Theorem mass_stays_in_cone (width rows startingSlot : Z) :
  0 < width -> 0 < rows ->
  exists df dist,
    plinko_stat (board width rows (Some startingSlot)) = Ok (df, dist) /\
    forall r c, 0 <= r < rows -> ~ (mass_at df r c == 0)%Q ->
      Z.abs (c - (startingSlot - 1)) <= r /\
      (c - (startingSlot - 1) - r) mod 2 = 0.
Proof.
  intros Hw Hrows.
  eexists _, _. split; [apply plinko_stat_closed_form; assumption|].
  intros r c Hr Hnz.
  rewrite mass_at_table in Hnz by lia.
  case_decide as Hc; [|exfalso; apply Hnz; reflexivity].
  destruct (decide (r < Z.abs (c - (startingSlot - 1)) \/
                    (c - (startingSlot - 1) - r) mod 2 = 1)) as [Hout|Hin].
  - exfalso. apply Hnz, mass_zero_off_cone.
    rewrite !Z2Nat.id by lia. exact Hout.
  - pose proof (Z.mod_pos_bound (c - (startingSlot - 1) - r) 2 ltac:(lia)).
    lia.
Qed.

Lemma mass_stays_in_cone_witness :
  exists df dist,
    plinko_stat (board 3 4 (Some 2)) = Ok (df, dist) /\
    forall r c, 0 <= r < 4 -> ~ (mass_at df r c == 0)%Q ->
      Z.abs (c - (2 - 1)) <= r /\ (c - (2 - 1) - r) mod 2 = 0.
Proof.
  apply (mass_stays_in_cone 3 4 2); lia.
Defined.

(** ** The mirrored table *)

Lemma reverse_columns (f : nat -> Q) (C : nat) :
  reverse (f <$> seq 0 C) = (fun j => f (C - 1 - j)%nat) <$> seq 0 C.
Proof.
  induction C as [|C IH]; [reflexivity|].
  rewrite seq_S at 1. rewrite fmap_app, reverse_app, IH.
  cbn [seq fmap list_fmap reverse app]. rewrite reverse_singleton.
  cbn [app]. f_equal; [f_equal; lia|].
  rewrite <- fmap_S_seq, <- list_fmap_compose.
  apply list_fmap_ext. intros _ j _. cbn. f_equal. lia.
Qed.

(** X4: the whole table mirrors.  The table for slot [k] is the table
    for slot [2*W - k] with every row reversed. *)
Theorem table_mirror (W rows k : Z) :
  0 < W -> 0 < rows ->
  exists df1 dist1 df2 dist2,
    plinko_stat (board W rows (Some k)) = Ok (df1, dist1) /\
    plinko_stat (board W rows (Some (2 * W - k))) = Ok (df2, dist2) /\
    df1 = reverse <$> df2.
Proof.
  intros Hw Hrows.
  eexists _, _, _, _.
  split; [apply plinko_stat_closed_form; assumption|].
  split; [apply plinko_stat_closed_form; assumption|].
  unfold grid_of. rewrite <- list_fmap_compose.
  apply list_fmap_ext. intros _ r _. unfold compose.
  rewrite reverse_columns.
  apply list_fmap_ext. intros i j Hj.
  apply lookup_seq in Hj as [-> Hj]. cbn [Nat.add].
  apply mass_mirror; assumption.
Qed.

Lemma table_mirror_witness :
  exists df1 dist1 df2 dist2,
    plinko_stat (board 3 4 (Some 1)) = Ok (df1, dist1) /\
    plinko_stat (board 3 4 (Some (2 * 3 - 1))) = Ok (df2, dist2) /\
    df1 = reverse <$> df2.
Proof.
  apply (table_mirror 3 4 1); lia.
Defined.

(** ** Configurations that raise *)

(** X5: with a number of rows that is zero or negative the frame has no
    row, and [df.iloc[-1,]] raises [IndexError]; [pi_init] lets the
    exception through, whatever the starting position. *)
Theorem no_rows_raises_IndexError (self : AyxPlugin) (width rows : Z)
    (startingSlot : option Z) :
  rows <= 0 ->
  plinko_stat (board width rows startingSlot) = Raise IndexError /\
  pi_init self {| NumberSlots := Some width; NumberRows := Some rows;
                  StartingPos := startingSlot |} = Raise IndexError.
Proof.
  intros Hrows.
  assert (Hstat : forall ini msgs d l,
            plinko_stat {| max_width := Some width; number_rows := Some rows;
                           starting_pos := startingSlot;
                           is_initialized := ini; error_messages := msgs;
                           df := d; last_row := l |} = Raise IndexError).
  { intros. unfold plinko_stat.
    cbn [max_width number_rows starting_pos as_int mbind PyResult_bind].
    unfold DataFrame_of_ranges.
    replace (Z.to_nat rows) with 0%nat by lia. reflexivity. }
  split; [apply Hstat|].
  unfold pi_init.
  cbn [NumberSlots NumberRows StartingPos max_width number_rows starting_pos
       is_initialized error_messages df last_row as_int].
  destruct startingSlot as [s|]; cbn [mbind PyResult_bind].
  - destruct (width <? s); cbn [mbind PyResult_bind];
      unfold display_error_msg;
      cbn [max_width number_rows starting_pos is_initialized
           error_messages df last_row];
      rewrite Hstat; reflexivity.
  - unfold display_error_msg.
    cbn [max_width number_rows starting_pos is_initialized
         error_messages df last_row].
    rewrite Hstat. reflexivity.
Qed.

Lemma no_rows_raises_IndexError_witness :
  plinko_stat (board 3 0 (Some 2)) = Raise IndexError /\
  pi_init new_plugin {| NumberSlots := Some 3; NumberRows := Some 0;
                        StartingPos := Some 2 |} = Raise IndexError.
Proof.
  apply (no_rows_raises_IndexError new_plugin 3 0 (Some 2)). lia.
Defined.

(** X6: a configuration without [NumberSlots] or without [NumberRows]
    makes [pi_init] raise [TypeError], with or without a starting
    position. *)
Theorem missing_size_raises_TypeError (self : AyxPlugin) (cfg : Config) :
  NumberSlots cfg = None \/ NumberRows cfg = None ->
  pi_init self cfg = Raise TypeError.
Proof.
  destruct cfg as [w r sp]. cbn [NumberSlots NumberRows]. intros H.
  unfold pi_init, plinko_stat, display_error_msg.
  cbn [NumberSlots NumberRows StartingPos max_width number_rows starting_pos
       is_initialized error_messages df last_row].
  destruct sp as [s|], w as [w|], r as [r|];
    try (destruct H; discriminate);
    cbn [as_int mbind PyResult_bind]; try reflexivity;
    destruct (w <? s); reflexivity.
Qed.

Lemma missing_size_raises_TypeError_witness :
  pi_init new_plugin {| NumberSlots := Some 3; NumberRows := None;
                        StartingPos := Some 2 |} = Raise TypeError.
Proof.
  apply (missing_size_raises_TypeError new_plugin
           {| NumberSlots := Some 3; NumberRows := None;
              StartingPos := Some 2 |}).
  right. reflexivity.
Defined.

(** ** More rows *)

(** X7: asking for more rows only appends rows.  The table for [rows]
    rows is the beginning of the table for any larger number of rows on
    the same board. *)
Theorem more_rows_extend_table (width rows rows' : Z)
    (startingSlot : option Z) :
  0 < rows -> rows <= rows' ->
  exists df dist df' dist',
    plinko_stat (board width rows startingSlot) = Ok (df, dist) /\
    plinko_stat (board width rows' startingSlot) = Ok (df', dist') /\
    df `prefix_of` df'.
Proof.
  intros Hrows Hle.
  eexists _, _, _, _.
  split; [apply plinko_stat_closed_form; assumption|].
  split; [apply plinko_stat_closed_form; lia|].
  unfold grid_of.
  replace (Z.to_nat rows') with (Z.to_nat rows + (Z.to_nat rows' - Z.to_nat rows))%nat
    by lia.
  rewrite seq_app, fmap_app. apply prefix_app_r. reflexivity.
Qed.

Lemma more_rows_extend_table_witness :
  exists df dist df' dist',
    plinko_stat (board 3 2 (Some 2)) = Ok (df, dist) /\
    plinko_stat (board 3 5 (Some 2)) = Ok (df', dist') /\
    df `prefix_of` df'.
Proof.
  apply (more_rows_extend_table 3 2 5 (Some 2)); lia.
Defined.

(** ** A start that misses the table *)

Lemma grid_of_Forall_in (P : Q -> Prop) (F : nat -> nat -> Q) (R C : nat) :
  (forall i j, (i < R)%nat -> (j < C)%nat -> P (F i j)) ->
  Forall (Forall P) (grid_of F R C).
Proof.
  intros H. unfold grid_of.
  apply Forall_fmap, Forall_forall. intros i Hi%elem_of_seq. cbn.
  apply Forall_fmap, Forall_forall. intros j Hj%elem_of_seq. cbn.
  apply H; lia.
Qed.

Lemma mass_missed (C : nat) (s : option Z) (r j : nat) :
  (forall j', (j' < C)%nat -> impulse s j' = 0%Q) ->
  (j < C)%nat -> (mass C s r j == 0)%Q.
Proof.
  intros Hs. revert j. induction r as [|r IH]; intros j Hj; cbn [mass].
  - rewrite Hs by assumption. reflexivity.
  - apply spread_zero_local; intros; apply IH; lia.
Qed.

(** X8: when the starting position is absent, or is not one of
    [1 .. 2*width - 1], no column receives the impulse: the table is zero
    throughout and the final distribution is empty. *)
Theorem start_off_table_gives_zero_table (width rows : Z)
    (startingSlot : option Z) :
  0 < rows ->
  (forall s, startingSlot = Some s -> s < 1 \/ 2 * width - 1 < s) ->
  exists df,
    plinko_stat (board width rows startingSlot) = Ok (df, []) /\
    Forall (Forall (fun v => (v == 0)%Q)) df.
Proof.
  intros Hrows Hoff.
  assert (Himp : forall j, (j < table_width width)%nat ->
                           impulse startingSlot j = 0%Q).
  { intros j Hj. unfold impulse. rewrite decide_False; [reflexivity|].
    intros E. symmetry in E. apply Hoff in E.
    unfold table_width in Hj. lia. }
  eexists. split.
  - rewrite plinko_stat_closed_form by assumption. do 2 f_equal.
    rewrite final_distribution_columns. apply nonzero_none.
    intros j Hj. apply mass_missed; [assumption|lia].
  - apply grid_of_Forall_in. intros i j _ Hj.
    apply mass_missed; assumption.
Qed.

Lemma start_off_table_gives_zero_table_witness :
  exists df,
    plinko_stat (board 3 2 (Some 6)) = Ok (df, []) /\
    Forall (Forall (fun v => (v == 0)%Q)) df.
Proof.
  apply (start_off_table_gives_zero_table 3 2 (Some 6)); [lia|].
  intros s [= <-]. lia.
Defined.

(** ** What [pi_init] stores and reports *)

(** X9: with [NumberSlots] present and a positive [NumberRows], [pi_init]
    never raises; it stores the table and the final distribution that
    [plinko_stat] computes from the configured values, and it adds one
    error message exactly when the starting position is absent or greater
    than [NumberSlots] (and none otherwise). *)
Theorem pi_init_stores_and_reports (self : AyxPlugin) (width rows : Z)
    (startingSlot : option Z) :
  0 < rows ->
  exists self' d l,
    pi_init self {| NumberSlots := Some width; NumberRows := Some rows;
                    StartingPos := startingSlot |} = Ok self' /\
    plinko_stat (board width rows startingSlot) = Ok (d, l) /\
    df self' = Some d /\ last_row self' = Some l /\
    max_width self' = Some width /\ number_rows self' = Some rows /\
    starting_pos self' = startingSlot /\
    ((exists s, startingSlot = Some s /\ s <= width) ->
     error_messages self' = error_messages self /\
     is_initialized self' = is_initialized self) /\
    (~ (exists s, startingSlot = Some s /\ s <= width) ->
     exists msg, error_messages self' = error_messages self ++ [msg] /\
                 is_initialized self' = Some false).
Proof.
  intros Hrows.
  pose proof (plinko_stat_closed_form width rows startingSlot Hrows) as Hstat.
  unfold board, plinko_stat in Hstat.
  cbn [max_width number_rows starting_pos] in Hstat.
  unfold pi_init.
  cbn [NumberSlots NumberRows StartingPos max_width number_rows starting_pos
       is_initialized error_messages df last_row as_int].
  destruct startingSlot as [s|]; cbn [mbind PyResult_bind].
  - destruct (Z.ltb_spec width s); cbn [mbind PyResult_bind];
      unfold display_error_msg, plinko_stat;
      cbn [max_width number_rows starting_pos is_initialized
           error_messages df last_row];
      rewrite Hstat; cbn [mbind PyResult_bind];
      eexists _, _, _; (split; [reflexivity|]);
      (split; [apply plinko_stat_closed_form; assumption|]);
      cbn [max_width number_rows starting_pos is_initialized
           error_messages df last_row];
      repeat (split; [reflexivity|]); split.
    + intros (s' & [= <-] & Hle). lia.
    + intros _. eexists. split; reflexivity.
    + intros _. split; reflexivity.
    + intros Hn. exfalso. apply Hn. exists s. split; [reflexivity|lia].
  - unfold display_error_msg, plinko_stat.
    cbn [max_width number_rows starting_pos is_initialized
         error_messages df last_row].
    rewrite Hstat. cbn [mbind PyResult_bind].
    eexists _, _, _. split; [reflexivity|].
    split; [apply plinko_stat_closed_form; assumption|].
    cbn [max_width number_rows starting_pos is_initialized
         error_messages df last_row].
    repeat (split; [reflexivity|]). split.
    + intros (s' & [=] & _).
    + intros _. eexists. split; reflexivity.
Qed.

Lemma pi_init_stores_and_reports_witness :
  exists self' d l,
    pi_init new_plugin {| NumberSlots := Some 3; NumberRows := Some 2;
                          StartingPos := Some 2 |} = Ok self' /\
    plinko_stat (board 3 2 (Some 2)) = Ok (d, l) /\
    df self' = Some d /\ last_row self' = Some l /\
    max_width self' = Some 3 /\ number_rows self' = Some 2 /\
    starting_pos self' = Some 2 /\
    ((exists s, Some 2 = Some s /\ s <= 3) ->
     error_messages self' = error_messages new_plugin /\
     is_initialized self' = is_initialized new_plugin) /\
    (~ (exists s, Some 2 = Some s /\ s <= 3) ->
     exists msg, error_messages self' = error_messages new_plugin ++ [msg] /\
                 is_initialized self' = Some false).
Proof.
  apply (pi_init_stores_and_reports new_plugin 3 2 (Some 2)). lia.
Defined.

(** ** Entries are probabilities *)

Lemma sumf_nonneg (f : nat -> Q) (n : nat) :
  (forall i, (0 <= f i)%Q) -> (0 <= sumf f n)%Q.
Proof.
  intros H. induction n as [|n IH]; cbn [sumf]; [lra|].
  pose proof (H n). lra.
Qed.

Lemma term_le_sumf (f : nat -> Q) (n j : nat) :
  (forall i, (0 <= f i)%Q) -> (j < n)%nat -> (f j <= sumf f n)%Q.
Proof.
  intros H. induction n as [|n IH]; intros Hj; [lia|]. cbn [sumf].
  destruct (decide (j = n)) as [->|Hne].
  - pose proof (sumf_nonneg f n H). lra.
  - pose proof (H n). specialize (IH ltac:(lia)). lra.
Qed.

(** A propagation step never adds mass, whatever the number of
    columns. *)
Lemma spread_sum_le (C : nat) (prev : nat -> Q) :
  (forall j, (0 <= prev j)%Q) ->
  (sumf (spread C prev) C <= sumf prev C)%Q.
Proof.
  intros H. destruct C as [|[|m]].
  - cbn [sumf]. lra.
  - cbn [sumf]. rewrite spread_zero_local by lia.
    pose proof (H 0%nat). lra.
  - rewrite spread_conserves. lra.
Qed.

Lemma impulse_sum_le (s : option Z) (n : nat) : (sumf (impulse s) n <= 1)%Q.
Proof.
  destruct s as [s|].
  - rewrite impulse_sum. case_decide; lra.
  - induction n as [|n IH]; cbn [sumf]; [lra|].
    unfold impulse at 2. rewrite decide_False by discriminate. lra.
Qed.

Lemma mass_sum_le (C : nat) (s : option Z) (r : nat) :
  (sumf (mass C s r) C <= 1)%Q.
Proof.
  induction r as [|r IH]; cbn [mass].
  - apply impulse_sum_le.
  - pose proof (spread_sum_le C (mass C s r) (mass_nonneg C s r)). lra.
Qed.

(** X10: every entry of the table is a probability.  For any width, any
    starting position (present or not) and any positive number of rows,
    each entry lies between 0 and 1. *)
Theorem entries_between_0_and_1 (width rows : Z) (startingSlot : option Z) :
  0 < rows ->
  exists df dist,
    plinko_stat (board width rows startingSlot) = Ok (df, dist) /\
    Forall (Forall (fun v => (0 <= v)%Q /\ (v <= 1)%Q)) df.
Proof.
  intros Hrows.
  eexists _, _. split; [apply plinko_stat_closed_form; assumption|].
  apply grid_of_Forall_in. intros i j _ Hj. split.
  - apply mass_nonneg.
  - pose proof (term_le_sumf (mass (table_width width) startingSlot i)
                  (table_width width) j
                  (mass_nonneg (table_width width) startingSlot i) Hj).
    pose proof (mass_sum_le (table_width width) startingSlot i). lra.
Qed.

Lemma entries_between_0_and_1_witness :
  exists df dist,
    plinko_stat (board 3 4 (Some 5)) = Ok (df, dist) /\
    Forall (Forall (fun v => (0 <= v)%Q /\ (v <= 1)%Q)) df.
Proof.
  apply (entries_between_0_and_1 3 4 (Some 5)). lia.
Defined.

(** ** The calls [pi_push_all_records] makes *)

Lemma for_each_p_inv {A S} (I : list A -> S -> Prop) (l : list A)
    (body : A -> S -> Pushing S) (s0 : S) :
  I [] s0 ->
  (forall done a rest s, l = done ++ a :: rest -> I done s ->
     exists s', body a s = Done s' /\ I (done ++ [a]) s') ->
  exists s', for_each_p l body s0 = Done s' /\ I l s'.
Proof.
  revert I s0. induction l as [|a l IH]; intros I s0 H0 Hstep.
  - exists s0. split; [reflexivity | assumption].
  - destruct (Hstep [] a l s0 eq_refl H0) as (s1 & Hb & H1).
    destruct (IH (fun d s => I (a :: d) s) s1 H1) as (s2 & Hf & H2).
    + intros d b rest s -> HI.
      apply (Hstep (a :: d) b rest s eq_refl HI).
    + exists s2. split; [|assumption].
      cbn [for_each_p]. rewrite Hb. exact Hf.
Qed.

Lemma loc_get_grid (F : nat -> nat -> Q) (R C i j : nat) :
  (i < R)%nat -> (j < C)%nat ->
  loc_get (grid_of F R C) (Z.of_nat i) (Z.of_nat j) = Done (F i j).
Proof.
  intros Hi Hj. unfold loc_get. rewrite decide_True by lia.
  rewrite !Nat2Z.id, grid_of_cell by assumption. reflexivity.
Qed.

Lemma render_row_grid (str_number : Q -> string) (f : nat -> Q) (C : nat) :
  render_row str_number (f <$> seq 0 C) =
  (fun j => (j, str_number (f j))) <$> seq 0 C.
Proof.
  unfold render_row. rewrite length_fmap, length_seq.
  induction (seq 0 C) as [|j l IH]; [reflexivity|].
  cbn. f_equal. exact IH.
Qed.

(** The loop over the rows of the frame sends one record per row. *)
Lemma frame_rows_pushed (str_number : Q -> string) (F : nat -> nat -> Q)
    (R C : nat) (host : list HostCall) :
  (0 < R)%nat ->
  let d := grid_of F R C in
  for_each_p (index d)
    (fun row '(host, record_creator) =>
       '(record_creator, t) ← for_each_p (columns d)
         (fun column '(record_creator, t) =>
            v ← loc_get d row column;
            Done (record_creator ++ [(t, str_number v)], S t))
         (record_creator, 0%nat);
       Done (host ++ [Call_push_record Anchor_DataFrame record_creator],
             @nil (nat * string)))
    (host, @nil (nat * string)) =
  Done (host ++
        ((fun row => Call_push_record Anchor_DataFrame
                       (render_row str_number row)) <$> d),
        []).
Proof.
  intros HR d. unfold d.
  rewrite grid_of_index, grid_of_columns by assumption.
  destruct (for_each_p_inv
    (fun done '(h, rc) =>
       rc = @nil (nat * string) /\
       h = host ++
           ((fun i => Call_push_record Anchor_DataFrame
                        ((fun j => (j, str_number (F i j))) <$> seq 0 C))
              <$> seq 0 (length done)))
    (seqZ 0 (Z.of_nat R))
    (fun row '(host, record_creator) =>
       '(record_creator, t) ← for_each_p (seqZ 0 (Z.of_nat C))
         (fun column '(record_creator, t) =>
            v ← loc_get (grid_of F R C) row column;
            Done (record_creator ++ [(t, str_number v)], S t))
         (record_creator, 0%nat);
       Done (host ++ [Call_push_record Anchor_DataFrame record_creator],
             @nil (nat * string)))
    (host, [])) as ([h rc] & -> & -> & ->).
  - split; [reflexivity|]. cbn. rewrite app_nil_r. reflexivity.
  - intros done row rest [h rc] Hl [-> ->].
    apply seqZ_split in Hl as [-> Hk].
    set (k := length done).
    destruct (for_each_p_inv
      (fun done' '(rc, t) =>
         t = length done' /\
         rc = (fun j => (j, str_number (F k j))) <$> seq 0 (length done'))
      (seqZ 0 (Z.of_nat C))
      (fun column '(record_creator, t) =>
         v ← loc_get (grid_of F R C) (Z.of_nat k) column;
         Done (record_creator ++ [(t, str_number v)], S t))
      ([], 0%nat)) as ([rc t] & -> & Ht & ->).
    + split; reflexivity.
    + intros done' column rest' [rc t] Hl' [-> ->].
      apply seqZ_split in Hl' as [-> Hj].
      rewrite loc_get_grid by assumption. cbn [mbind Pushing_bind].
      eexists (_, _). split; [reflexivity|].
      rewrite length_app. cbn [length]. split; [lia|].
      rewrite Nat.add_1_r, seq_S, fmap_app. reflexivity.
    + cbn [mbind Pushing_bind]. eexists (_, _). split; [reflexivity|].
      split; [reflexivity|].
      rewrite length_app, length_seqZ, Nat2Z.id. cbn [length].
      rewrite Nat.add_1_r, seq_S, fmap_app, app_assoc. reflexivity.
  - rewrite length_seqZ, Nat2Z.id. do 3 f_equal.
    unfold grid_of. rewrite <- list_fmap_compose.
    apply list_fmap_ext. intros _ i _. unfold compose.
    rewrite render_row_grid. reflexivity.
Qed.

Lemma series_get_sorted (s : list (Z * Q)) (i : nat) (k : Z) (v : Q) :
  StronglySorted Z.lt s.*1 -> s !! i = Some (k, v) ->
  series_get s k = Done v.
Proof.
  revert i. induction s as [|[k' v'] s IH]; intros i Hs Hi; [discriminate|].
  cbn [series_get]. destruct i as [|i].
  - injection Hi as -> ->. rewrite decide_True by reflexivity. reflexivity.
  - cbn in Hs. apply StronglySorted_inv in Hs as [Hs Hall].
    rewrite decide_False.
    + apply (IH i); assumption.
    + intros ->. rewrite Forall_forall in Hall.
      specialize (Hall k). cbn in Hi.
      assert (k ∈ s.*1) as Hin.
      { apply list_elem_of_fmap. exists (k, v). split; [reflexivity|].
        apply list_elem_of_lookup. exists i. exact Hi. }
      specialize (Hall Hin). lia.
Qed.

(** The loop over the final distribution sends one record per entry. *)
Lemma series_entries_pushed (str_number : Q -> string) (l : list (Z * Q))
    (host : list HostCall) :
  StronglySorted Z.lt l.*1 ->
  for_each_p (series_index l)
    (fun row '(host, record_creator) =>
       v ← series_get l row;
       Done (host ++ [Call_push_record Anchor_LastRow
                        (record_creator ++ [(0%nat, pretty row)] ++
                         [(1%nat, str_number v)])],
             @nil (nat * string)))
    (host, @nil (nat * string)) =
  Done (host ++
        ((fun p => Call_push_record Anchor_LastRow
                     (render_entry str_number p)) <$> l),
        []).
Proof.
  intros Hs. unfold series_index.
  destruct (for_each_p_inv
    (fun done '(h, rc) =>
       rc = @nil (nat * string) /\
       h = host ++
           ((fun p => Call_push_record Anchor_LastRow
                        (render_entry str_number p))
              <$> take (length done) l))
    (l.*1)
    (fun row '(host, record_creator) =>
       v ← series_get l row;
       Done (host ++ [Call_push_record Anchor_LastRow
                        (record_creator ++ [(0%nat, pretty row)] ++
                         [(1%nat, str_number v)])],
             @nil (nat * string)))
    (host, [])) as ([h rc] & -> & -> & ->).
  - split; [reflexivity|]. cbn. rewrite app_nil_r. reflexivity.
  - intros done row rest [h rc] Hl [-> ->].
    assert (Hrow : l.*1 !! length done = Some row).
    { rewrite Hl. apply list_lookup_middle. reflexivity. }
    rewrite list_lookup_fmap in Hrow.
    destruct (l !! length done) as [[k v]|] eqn:Hk; [|discriminate].
    injection Hrow as <-.
    rewrite (series_get_sorted l (length done) k v Hs Hk).
    cbn [mbind Pushing_bind]. eexists (_, _). split; [reflexivity|].
    split; [reflexivity|].
    rewrite length_app. cbn [length]. rewrite Nat.add_1_r.
    rewrite (take_S_r l (length done) (k, v) Hk), fmap_app, <- !app_assoc.
    reflexivity.
  - rewrite length_fmap, firstn_all. reflexivity.
Qed.

(** All the calls of [pi_push_all_records] on a plugin that holds a
    rectangular frame and a series with increasing labels. *)
Lemma push_calls_closed_form (str_number : Q -> string) (self : AyxPlugin)
    (F : nat -> nat -> Q) (R C : nat) (l : list (Z * Q))
    (n_record_limit : Z) (host : list HostCall) :
  (0 < R)%nat -> df self = Some (grid_of F R C) -> last_row self = Some l ->
  StronglySorted Z.lt l.*1 ->
  pi_push_all_records str_number self n_record_limit host =
  Done (true,
        host ++
        [Call_init Anchor_DataFrame
           ((fun c : Z => (pretty c, FieldType_float))
              <$> seqZ 0 (Z.of_nat C))] ++
        ((fun row => Call_push_record Anchor_DataFrame
                       (render_row str_number row)) <$> grid_of F R C) ++
        [Call_close Anchor_DataFrame;
         Call_init Anchor_LastRow
           [("Position"%string, FieldType_int16);
            ("Value"%string, FieldType_float)]] ++
        ((fun p => Call_push_record Anchor_LastRow
                     (render_entry str_number p)) <$> l) ++
        [Call_close Anchor_LastRow]).
Proof.
  intros HR Hd Hl Hs. unfold pi_push_all_records.
  rewrite Hd, Hl. cbn [attribute mbind Pushing_bind].
  rewrite (frame_rows_pushed str_number F R C _ HR).
  cbn [mbind Pushing_bind].
  rewrite (series_entries_pushed str_number l _ Hs).
  cbn [mbind Pushing_bind].
  unfold build_record_info_out, obj_columns.
  rewrite grid_of_columns by assumption.
  cbn [app]. do 2 f_equal.
  rewrite <- !app_assoc. reflexivity.
Qed.

Lemma final_distribution_sorted (C : nat) (s : option Z) (R : nat) :
  StronglySorted Z.lt (final_distribution C s R).*1.
Proof. rewrite final_distribution_columns. apply nonzero_sorted. Qed.

(** What [pi_init] leaves in the plugin, in closed form. *)
Lemma pi_init_closed_form (self : AyxPlugin) (width rows : Z)
    (startingSlot : option Z) :
  0 < rows ->
  exists self',
    pi_init self {| NumberSlots := Some width; NumberRows := Some rows;
                    StartingPos := startingSlot |} = Ok self' /\
    df self' = Some (grid_of (mass (table_width width) startingSlot)
                             (Z.to_nat rows) (table_width width)) /\
    last_row self' = Some (final_distribution (table_width width)
                             startingSlot (Z.to_nat rows)).
Proof.
  intros Hrows.
  pose proof (plinko_stat_closed_form width rows startingSlot Hrows) as Hstat.
  unfold board, plinko_stat in Hstat.
  cbn [max_width number_rows starting_pos] in Hstat.
  unfold pi_init.
  cbn [NumberSlots NumberRows StartingPos max_width number_rows starting_pos
       is_initialized error_messages df last_row as_int].
  destruct startingSlot as [s|]; cbn [mbind PyResult_bind];
    [destruct (width <? s); cbn [mbind PyResult_bind]|];
    unfold display_error_msg, plinko_stat;
    cbn [max_width number_rows starting_pos is_initialized
         error_messages df last_row];
    rewrite Hstat; cbn [mbind PyResult_bind];
    eexists; (split; [reflexivity|]); split; reflexivity.
Qed.

Lemma pushed_frame_records (a : OutputAnchor) (f : list Q -> Record)
    (d : list (list Q)) :
  pushed a ((fun row => Call_push_record Anchor_DataFrame (f row)) <$> d) =
  match a with
  | Anchor_DataFrame => f <$> d
  | Anchor_LastRow => []
  end.
Proof.
  unfold pushed. induction d as [|row d IH]; [destruct a; reflexivity|].
  cbn [fmap list_fmap omap list_omap]. rewrite IH.
  destruct a; reflexivity.
Qed.

Lemma pushed_series_records (a : OutputAnchor) (f : Z * Q -> Record)
    (l : list (Z * Q)) :
  pushed a ((fun p => Call_push_record Anchor_LastRow (f p)) <$> l) =
  match a with
  | Anchor_DataFrame => []
  | Anchor_LastRow => f <$> l
  end.
Proof.
  unfold pushed. induction l as [|p l IH]; [destruct a; reflexivity|].
  cbn [fmap list_fmap omap list_omap]. rewrite IH.
  destruct a; reflexivity.
Qed.

Lemma pushed_app (a : OutputAnchor) (h1 h2 : list HostCall) :
  pushed a (h1 ++ h2) = pushed a h1 ++ pushed a h2.
Proof. unfold pushed. apply omap_app. Qed.

Lemma calls_of_run (str_number : Q -> string) (self : AyxPlugin)
    (width rows : Z) (startingSlot : option Z) (n_record_limit : Z) :
  0 < rows ->
  exists self',
    pi_init self {| NumberSlots := Some width; NumberRows := Some rows;
                    StartingPos := startingSlot |} = Ok self' /\
    df self' = Some (grid_of (mass (table_width width) startingSlot)
                             (Z.to_nat rows) (table_width width)) /\
    last_row self' = Some (final_distribution (table_width width)
                             startingSlot (Z.to_nat rows)) /\
    pi_push_all_records str_number self' n_record_limit [] =
    Done (true,
          [Call_init Anchor_DataFrame
             ((fun c : Z => (pretty c, FieldType_float))
                <$> seqZ 0 (2 * width - 1))] ++
          ((fun row => Call_push_record Anchor_DataFrame
                         (render_row str_number row))
             <$> grid_of (mass (table_width width) startingSlot)
                         (Z.to_nat rows) (table_width width)) ++
          [Call_close Anchor_DataFrame;
           Call_init Anchor_LastRow
             [("Position"%string, FieldType_int16);
              ("Value"%string, FieldType_float)]] ++
          ((fun p => Call_push_record Anchor_LastRow
                       (render_entry str_number p))
             <$> final_distribution (table_width width) startingSlot
                   (Z.to_nat rows)) ++
          [Call_close Anchor_LastRow]).
Proof.
  intros Hrows.
  destruct (pi_init_closed_form self width rows startingSlot Hrows)
    as (self' & Hinit & Hd & Hl).
  exists self'. repeat (split; [assumption|]).
  assert (HR : (0 < Z.to_nat rows)%nat) by lia.
  rewrite (push_calls_closed_form str_number self' _ _ _ _ _ []
             HR Hd Hl (final_distribution_sorted _ _ _)).
  replace (2 * width - 1) with (width * 2 - 1) by lia.
  unfold seqZ, table_width. rewrite Nat2Z.id. reflexivity.
Qed.



(** X12: the records of the DataFrame anchor fit its layout.  The layout
    has [2*width - 1] fields with pairwise different names; the anchor
    receives exactly [NumberRows] records, and every record sets each
    field of the layout once, in field order. *)
Theorem frame_records_fill_the_layout (str_number : Q -> string)
    (self : AyxPlugin) (width rows : Z) (startingSlot : option Z)
    (n_record_limit : Z) :
  0 < rows ->
  exists self' calls info,
    pi_init self {| NumberSlots := Some width; NumberRows := Some rows;
                    StartingPos := startingSlot |} = Ok self' /\
    pi_push_all_records str_number self' n_record_limit [] =
    Done (true, calls) /\
    head calls = Some (Call_init Anchor_DataFrame info) /\
    length info = Z.to_nat (2 * width - 1) /\
    NoDup info.*1 /\
    Z.of_nat (length (pushed Anchor_DataFrame calls)) = rows /\
    Forall (fun r : list (nat * string) => r.*1 = seq 0 (length info))
           (pushed Anchor_DataFrame calls).
Proof.
  intros Hrows.
  destruct (calls_of_run str_number self width rows startingSlot
              n_record_limit Hrows) as (self' & Hinit & Hd & Hl & Hpush).
  eexists self', _, _.
  split; [exact Hinit|]. split; [exact Hpush|].
  split; [reflexivity|].
  assert (Hlen : length ((fun c : Z => (pretty c, FieldType_float))
                           <$> seqZ 0 (2 * width - 1)) =
                 table_width width).
  { rewrite length_fmap, length_seqZ. unfold table_width. lia. }
  split; [rewrite Hlen; unfold table_width; lia|].
  split.
  { rewrite <- list_fmap_compose.
    apply (NoDup_fmap_2 (pretty : Z -> string)), NoDup_seqZ. }
  rewrite !pushed_app, pushed_frame_records, pushed_series_records.
  cbn [pushed omap list_omap app]. rewrite app_nil_r.
  split.
  - rewrite length_fmap, grid_of_length. lia.
  - rewrite Hlen. apply Forall_fmap.
    unfold grid_of. apply Forall_fmap, Forall_forall. intros i _.
    unfold compose.
    rewrite render_row_grid, <- list_fmap_compose.
    apply list_fmap_id.
Qed.

Lemma frame_records_fill_the_layout_witness :
  exists self' calls info,
    pi_init new_plugin {| NumberSlots := Some 2; NumberRows := Some 3;
                          StartingPos := Some 1 |} = Ok self' /\
    pi_push_all_records (fun q => pretty (Qnum q)) self' 0 [] =
    Done (true, calls) /\
    head calls = Some (Call_init Anchor_DataFrame info) /\
    length info = Z.to_nat (2 * 2 - 1) /\
    NoDup info.*1 /\
    Z.of_nat (length (pushed Anchor_DataFrame calls)) = 3 /\
    Forall (fun r : list (nat * string) => r.*1 = seq 0 (length info))
           (pushed Anchor_DataFrame calls).
Proof.
  apply (frame_records_fill_the_layout (fun q => pretty (Qnum q))
           new_plugin 2 3 (Some 1) 0).
  lia.
Defined.

Lemma sorted_NoDup (l : list Z) : StronglySorted Z.lt l -> NoDup l.
Proof.
  induction 1 as [|x l Hl IH Hx]; constructor; [|assumption].
  intros Hin. rewrite Forall_forall in Hx. specialize (Hx x Hin). lia.
Qed.

(** X13: the records of the LastRow anchor.  The anchor receives one
    record per entry of the final distribution, in order, holding the
    decimal text of the column index in field 0 and the text of the mass
    in field 1; no two records carry the same Position text. *)
Theorem distribution_records_have_distinct_positions
    (str_number : Q -> string) (self : AyxPlugin) (width rows : Z)
    (startingSlot : option Z) (n_record_limit : Z) :
  0 < rows ->
  exists self' l calls,
    pi_init self {| NumberSlots := Some width; NumberRows := Some rows;
                    StartingPos := startingSlot |} = Ok self' /\
    last_row self' = Some l /\
    pi_push_all_records str_number self' n_record_limit [] =
    Done (true, calls) /\
    pushed Anchor_LastRow calls =
    (fun p : Z * Q => [(0%nat, pretty p.1); (1%nat, str_number p.2)]) <$> l /\
    NoDup ((fun r : list (nat * string) => r !! 0%nat)
             <$> pushed Anchor_LastRow calls).
Proof.
  intros Hrows.
  destruct (calls_of_run str_number self width rows startingSlot
              n_record_limit Hrows) as (self' & Hinit & Hd & Hl & Hpush).
  eexists self', _, _.
  split; [exact Hinit|]. split; [exact Hl|]. split; [exact Hpush|].
  rewrite !pushed_app, pushed_frame_records, pushed_series_records.
  cbn [pushed omap list_omap app]. rewrite app_nil_r.
  split; [reflexivity|].
  rewrite <- list_fmap_compose.
  change ((fun r : list (nat * string) => r !! 0%nat)
            ∘ render_entry str_number)
    with ((fun k : Z => Some (0%nat, pretty k)) ∘ (fst : Z * Q -> Z)).
  rewrite list_fmap_compose.
  apply NoDup_fmap_2.
  - intros k1 k2 [= E]. apply (inj pretty) in E. exact E.
  - apply sorted_NoDup, final_distribution_sorted.
Qed.

Lemma distribution_records_have_distinct_positions_witness :
  exists self' l calls,
    pi_init new_plugin {| NumberSlots := Some 2; NumberRows := Some 3;
                          StartingPos := Some 1 |} = Ok self' /\
    last_row self' = Some l /\
    pi_push_all_records (fun q => pretty (Qnum q)) self' 0 [] =
    Done (true, calls) /\
    pushed Anchor_LastRow calls =
    (fun p : Z * Q =>
       [(0%nat, pretty p.1); (1%nat, pretty (Qnum p.2))]) <$> l /\
    NoDup ((fun r : list (nat * string) => r !! 0%nat)
             <$> pushed Anchor_LastRow calls).
Proof.
  apply (distribution_records_have_distinct_positions
           (fun q => pretty (Qnum q)) new_plugin 2 3 (Some 1) 0).
  lia.
Defined.

(** ** Binary fractions *)

Lemma impulse_integer (s : option Z) (j : nat) :
  exists n : Z, (impulse s j == inject_Z n)%Q.
Proof.
  unfold impulse. case_decide; [exists 1|exists 0]; reflexivity.
Qed.

Lemma dyadic_zero (p : Z) :
  exists n : Z, (0 * inject_Z p == inject_Z n)%Q.
Proof. exists 0. ring. Qed.

Lemma dyadic_full (p : Z) (x : Q) :
  (exists n : Z, (x * inject_Z p == inject_Z n)%Q) ->
  exists n : Z, (x * inject_Z (2 * p) == inject_Z n)%Q.
Proof.
  intros [n Hn]. exists (2 * n).
  rewrite !inject_Z_mult, <- Hn. ring.
Qed.

Lemma dyadic_half (p : Z) (x : Q) :
  (exists n : Z, (x * inject_Z p == inject_Z n)%Q) ->
  exists n : Z, (x / 2 * inject_Z (2 * p) == inject_Z n)%Q.
Proof.
  intros [n Hn]. exists n.
  rewrite inject_Z_mult, <- Hn. field.
Qed.

Lemma dyadic_sum (q : Z) (x y : Q) :
  (exists n : Z, (x * inject_Z q == inject_Z n)%Q) ->
  (exists n : Z, (y * inject_Z q == inject_Z n)%Q) ->
  exists n : Z, ((0 + x + y) * inject_Z q == inject_Z n)%Q.
Proof.
  intros [n Hn] [m Hm]. exists (n + m).
  rewrite inject_Z_plus, <- Hn, <- Hm. ring.
Qed.

Lemma spread_dyadic (C : nat) (prev : nat -> Q) (p : Z) (j : nat) :
  (forall j', exists n : Z, (prev j' * inject_Z p == inject_Z n)%Q) ->
  exists n : Z, (spread C prev j * inject_Z (2 * p) == inject_Z n)%Q.
Proof.
  intros H. unfold spread.
  repeat case_decide; apply dyadic_sum;
    first [apply dyadic_half | apply dyadic_full];
    first [apply H | apply dyadic_zero].
Qed.

Lemma mass_dyadic (C : nat) (s : option Z) (r j : nat) :
  exists n : Z,
    (mass C s r j * inject_Z (2 ^ Z.of_nat r) == inject_Z n)%Q.
Proof.
  revert j. induction r as [|r IH]; intros j.
  - destruct (impulse_integer s j) as [n Hn]. exists n.
    cbn [mass]. rewrite Hn. change (inject_Z (2 ^ Z.of_nat 0)) with 1%Q.
    ring.
  - replace (2 ^ Z.of_nat (S r)) with (2 * 2 ^ Z.of_nat r)
      by (rewrite Nat2Z.inj_succ, Z.pow_succ_r by lia; reflexivity).
    cbn [mass]. apply spread_dyadic, IH.
Qed.

(** X14: the masses are binary fractions.  Every entry of row [r],
    multiplied by [2^r], is an integer. *)
Theorem entries_are_binary_fractions (width rows : Z)
    (startingSlot : option Z) :
  0 < rows ->
  exists df dist,
    plinko_stat (board width rows startingSlot) = Ok (df, dist) /\
    forall r c, 0 <= r < rows ->
      exists n : Z, (mass_at df r c * inject_Z (2 ^ r) == inject_Z n)%Q.
Proof.
  intros Hrows.
  eexists _, _. split; [apply plinko_stat_closed_form; assumption|].
  intros r c Hr. rewrite mass_at_table by lia. case_decide.
  - destruct (mass_dyadic (table_width width) startingSlot
                (Z.to_nat r) (Z.to_nat c)) as [n Hn].
    exists n. rewrite Z2Nat.id in Hn by lia. exact Hn.
  - exists 0. ring.
Qed.

Lemma entries_are_binary_fractions_witness :
  exists df dist,
    plinko_stat (board 3 4 (Some 2)) = Ok (df, dist) /\
    forall r c, 0 <= r < 4 ->
      exists n : Z, (mass_at df r c * inject_Z (2 ^ r) == inject_Z n)%Q.
Proof.
  apply (entries_are_binary_fractions 3 4 (Some 2)). lia.
Defined.

(** ** The centre slot *)

(** X15: slot [width] is the centre of the table (column [width - 1] of
    [2*width - 1]); started there, every row of the table reads the same
    from the left and from the right. *)
Theorem centre_start_gives_symmetric_rows (width rows : Z) :
  0 < width -> 0 < rows ->
  exists df dist,
    plinko_stat (board width rows (Some width)) = Ok (df, dist) /\
    Forall (fun row => reverse row = row) df.
Proof.
  intros Hw Hrows.
  eexists _, _. split; [apply plinko_stat_closed_form; assumption|].
  unfold grid_of. apply Forall_fmap, Forall_forall. intros r _.
  unfold compose. rewrite reverse_columns.
  apply list_fmap_ext. intros i j Hj.
  apply lookup_seq in Hj as [-> Hj]. cbn [Nat.add].
  rewrite (mass_mirror width width r (table_width width - 1 - i)) by lia.
  replace (2 * width - width) with width by lia.
  f_equal. lia.
Qed.

Lemma centre_start_gives_symmetric_rows_witness :
  exists df dist,
    plinko_stat (board 3 4 (Some 3)) = Ok (df, dist) /\
    Forall (fun row => reverse row = row) df.
Proof.
  apply (centre_start_gives_symmetric_rows 3 4); lia.
Defined.
